(** * tech-house: the go-micro gRPC client singleton and the customers
      lambda handler

    Shallow embedding of
      - pkg/microservices/go-micro/v4/grpc-client/client.go
      - projects/customers-manager/internal/customer/adapters/inbound/lambda-handler.go

    Conventions.  A Go [error] value is [option error] ([None] is nil); a
    nil-able interface or pointer is an [option]; a slice is a [list] (the
    nil slice is [[]]); a Go map is a [gmap] (a missing key reads as
    [None]); a run-time panic is the [Panics] outcome.  Package-level
    variables live in an explicit store; goroutines are threads of a small
    interleaving machine. *)

From stdpp Require Import base option list gmap strings.

Local Open Scope string_scope.
Local Open Scope list_scope.

(** ** Go prelude *)

Module Go.

(** The [error] interface as far as the code observes it: the text of
    [Error()] and, for errors made with [fmt.Errorf("... %w", err)], the
    wrapped cause. *)
Inductive error : Type :=
| errorString (msg : string)
| wrapError (msg : string) (cause : error).

Definition Error (e : error) : string :=
  match e with
  | errorString msg => msg
  | wrapError msg _ => msg
  end.

Definition Unwrap (e : error) : option error :=
  match e with
  | errorString _ => None
  | wrapError _ cause => Some cause
  end.

(** What evaluating an expression can do: yield a value or panic. *)
Inductive outcome (A : Type) : Type :=
| Returns (a : A)
| Panics.
Arguments Returns {A} a.
Arguments Panics {A}.

Definition bind {A B : Type} (o : outcome A) (k : A -> outcome B) : outcome B :=
  match o with
  | Returns a => k a
  | Panics => Panics
  end.

(** [s[i]] on a slice: an index out of range panics. *)
Definition index {A : Type} (s : list A) (i : nat) : outcome A :=
  match s !! i with
  | Some x => Returns x
  | None => Panics
  end.

(** [*p] on a pointer: nil panics. *)
Definition deref {A : Type} (p : option A) : outcome A :=
  match p with
  | Some x => Returns x
  | None => Panics
  end.

End Go.

(** ** go-micro registry records *)

Module registry.

Record Node : Type := mkNode {
  Id : string;
  Address : string;
  Metadata : gmap string string
}.

Record Service : Type := mkService {
  Name : string;
  Nodes : list Node
}.

End registry.

(** ** The configuration interface [defs.Config] *)

Module defs.

Record Config : Type := mkConfig {
  GetConsulAddress : string;
  GetServerName : string
}.

End defs.

(** ** Package pkggomicro: client.go *)

Module pkggomicro.
Import Go.

(** External collaborators: the consul registry and the gRPC transport
    factory.  [GetService r name k] is what the registry answers to the
    [k]-th lookup made by the process (counting from 0). *)
Class Externals : Type := {
  Registry : Type;
  consul_NewRegistry : string -> Registry;
  GetService : Registry -> string -> nat -> list registry.Service * option error;
  gmClient : Type;
  grpc_NewClient : Registry -> gmClient
}.

Section Client.
Context {ext : Externals}.

(** [type client struct { c gmclient.Client; rs []*registry.Service }] *)
Record client : Type := mkClient {
  c : option gmClient;
  rs : list registry.Service
}.

(** [func (c *client) GetClient() gmclient.Client] *)
Definition GetClient (h : client) : option gmClient := c h.

(** [func (c *client) GetServerName() string { return c.rs[0].Name }] *)
Definition GetServerName (h : client) : outcome string :=
  bind (index (rs h) 0) (fun s => Returns (registry.Name s)).

(** *** getRegisteredServices *)

Definition print_node (node : registry.Node) : list string :=
  [ "  - Instance ID: " +:+ registry.Id node;
    "  - Address: " +:+ registry.Address node;
    match registry.Metadata node !! "port" with
    | Some port => "  - Port: " +:+ port
    | None => "  - Port: Not available in metadata"
    end ].

Definition print_service (service : registry.Service) : list string :=
  ("Service: " +:+ registry.Name service)
    :: concat (map print_node (registry.Nodes service)).

(** The function returns its two results and the lines it printed; [k] is
    the number of lookups the process made before this one. *)
Definition getRegisteredServices (config : defs.Config) (k : nat)
  : (list registry.Service * option error) * list string :=
  let consulRegistry := consul_NewRegistry (defs.GetConsulAddress config) in
  let '(services, err) :=
    GetService consulRegistry (defs.GetServerName config) k in
  match err with
  | Some e =>
      (([], Some (wrapError
                   ("error retrieving service " +:+ defs.GetServerName config
                      +:+ " from Consul: " +:+ Error e) e)), [])
  | None =>
      if decide (length services = 0)
      then (([], Some (errorString
                         ("no instances found for service "
                            +:+ defs.GetServerName config))), [])
      else ((services, None), concat (map print_service services))
  end.

(** *** setupClient *)

Definition setupClient (config : defs.Config) : option gmClient * option error :=
  let consulRegistry := consul_NewRegistry (defs.GetConsulAddress config) in
  let c := grpc_NewClient consulRegistry in
  (Some c, None).

(** *** The package-level variables

    [instance], [once] and [initError] are the variables of the [var]
    block.  [instanceMu] guards single reads and single writes of
    [instance], each of which is one atomic step below, so the lock itself
    carries no state here.  [lookups] counts the registry lookups made so
    far, [stdout] is what was printed, and [setupCalls] counts the calls of
    the setup function (it is not read by the program). *)

Inductive OnceState : Type := OnceIdle | OnceRunning | OnceDone.

Record Shared : Type := mkShared {
  instance : option client;
  once : OnceState;
  initError : option error;
  lookups : nat;
  setupCalls : nat;
  stdout : list string
}.

Definition set_instance (v : option client) (s : Shared) : Shared :=
  mkShared v (once s) (initError s) (lookups s) (setupCalls s) (stdout s).
Definition set_once (v : OnceState) (s : Shared) : Shared :=
  mkShared (instance s) v (initError s) (lookups s) (setupCalls s) (stdout s).
Definition set_initError (v : option error) (s : Shared) : Shared :=
  mkShared (instance s) (once s) v (lookups s) (setupCalls s) (stdout s).
Definition incr_lookups (s : Shared) : Shared :=
  mkShared (instance s) (once s) (initError s) (S (lookups s)) (setupCalls s)
           (stdout s).
Definition incr_setupCalls (s : Shared) : Shared :=
  mkShared (instance s) (once s) (initError s) (lookups s) (S (setupCalls s))
           (stdout s).
Definition print (lines : list string) (s : Shared) : Shared :=
  mkShared (instance s) (once s) (initError s) (lookups s) (setupCalls s)
           (stdout s ++ lines).

(** *** attemptGettingRegisteredServices: the background goroutine

    Control points: the top of the [for] loop, the point after a
    successful lookup (about to take the write lock and publish), and the
    end of the function.  A failed iteration prints, sleeps 5 seconds and
    is back at the top; sleeping takes no step of its own. *)

Inductive TaskPc : Type :=
| LoopTop
| Publishing (regSrv : list registry.Service)
| Finished.

Definition task_step (config : defs.Config) (pc : TaskPc) (s : Shared)
  : TaskPc * Shared :=
  match pc with
  | LoopTop =>
      let s := print ["Getting gRPC server..."] s in
      let '((regSrv, err), out) := getRegisteredServices config (lookups s) in
      let s := print out (incr_lookups s) in
      match err with
      | Some e =>
          (LoopTop,
           print ["Error getting registered services from Consul: "
                    +:+ Error e +:+ ". Retrying in 5 seconds..."] s)
      | None => (Publishing regSrv, s)
      end
  | Publishing regSrv =>
      let s := set_instance (Some (mkClient None regSrv)) s in
      (Finished, print ["Service found"] s)
  | Finished => (Finished, s)
  end.

(** The goroutine running alone for at most [fuel] steps. *)
Fixpoint attemptGettingRegisteredServices
    (fuel : nat) (config : defs.Config) (pc : TaskPc) (s : Shared)
  : TaskPc * Shared :=
  match fuel with
  | O => (pc, s)
  | S fuel' =>
      match pc with
      | Finished => (Finished, s)
      | _ =>
          let '(pc', s') := task_step config pc s in
          attemptGettingRegisteredServices fuel' config pc' s'
      end
  end.

(** *** newClient: one caller

    Control points: inside [once.Do] (waiting for the guard), inside the
    closure, at the top of the wait loop, after the [break], and returned.
    [setup] stands for the call [setupClient(config)] of line 31; the
    program is the instance [setup := setupClient].  The closure runs
    while every other caller is held in [once.Do] and before the goroutine
    exists, so its statements are taken as one step. *)

Inductive CallerPc : Type :=
| InOnceDo
| InClosure
| WaitLoop
| AfterLoop
| Returned (r : option client * option error).

Section Machine.
Variable setup : defs.Config -> option gmClient * option error.

(** The closure passed to [once.Do] (lines 30-41): the new shared store and
    the goroutines started by [go]. *)
Definition once_closure (config : defs.Config) (s : Shared)
  : Shared * list TaskPc :=
  let '(clt, err) := setup config in
  let s := incr_setupCalls s in
  match err with
  | Some e =>
      (set_initError
         (Some (wrapError ("error setting up gRPC client: " +:+ Error e) e)) s,
       [])
  | None =>
      (set_instance (Some (mkClient clt [])) s, [LoopTop])
  end.

Definition newClient_step (config : defs.Config) (pc : CallerPc) (s : Shared)
  : CallerPc * Shared * list TaskPc :=
  match pc with
  | InOnceDo =>
      match once s with
      | OnceIdle => (InClosure, set_once OnceRunning s, [])
      | OnceRunning => (InOnceDo, s, [])
      | OnceDone => (WaitLoop, s, [])
      end
  | InClosure =>
      let '(s, spawned) := once_closure config s in
      (WaitLoop, set_once OnceDone s, spawned)
  | WaitLoop =>
      match instance s with
      | Some _ => (AfterLoop, s, [])
      | None => (WaitLoop, s, [])
      end
  | AfterLoop => (Returned (instance s, None), s, [])
  | Returned r => (Returned r, s, [])
  end.

(** *** The process: callers of newClient and background goroutines *)

Record World : Type := mkWorld {
  shared : Shared;
  callers : list CallerPc;
  tasks : list TaskPc
}.

Inductive tid : Type :=
| Caller (i : nat)
| Task (j : nat).

Definition step (config : defs.Config) (t : tid) (w : World) : World :=
  match t with
  | Caller i =>
      match callers w !! i with
      | Some pc =>
          let '(pc', s', spawned) := newClient_step config pc (shared w) in
          mkWorld s' (<[i := pc']> (callers w)) (tasks w ++ spawned)
      | None => w
      end
  | Task j =>
      match tasks w !! j with
      | Some pc =>
          let '(pc', s') := task_step config pc (shared w) in
          mkWorld s' (callers w) (<[j := pc']> (tasks w))
      | None => w
      end
  end.

Definition run (config : defs.Config) (sched : list tid) (w : World) : World :=
  foldl (fun w t => step config t w) w sched.

End Machine.

(** Process start: nothing initialised, [N] callers about to enter
    [once.Do], no goroutine. *)
Definition init (N : nat) : World :=
  mkWorld (mkShared None OnceIdle None 0 0 []) (replicate N InOnceDo) [].

(** *** Vocabulary of the properties *)

(** The [k]-th registry answer makes the lookup step fail: the registry
    reports an error or lists no record. *)
Definition lookup_fails (config : defs.Config) (k : nat) : Prop :=
  let resp := GetService (consul_NewRegistry (defs.GetConsulAddress config))
                         (defs.GetServerName config) k in
  snd resp <> None \/ fst resp = [].

(** The error the closure stores in [initError] when setup fails with [e]. *)
Definition setupFailure (e : error) : error :=
  wrapError ("error setting up gRPC client: " +:+ Error e) e.

(** A call that went past the wait loop holds a handle, and a returned
    call reports a handle and no error. *)
Definition caller_settled (pc : CallerPc) : Prop :=
  match pc with
  | InClosure => False
  | Returned r => snd r = None /\ is_Some (fst r)
  | _ => True
  end.

(** What holds of the process in each state of the one-shot guard. *)
Definition guard_inv
    (setup : defs.Config -> option gmClient * option error)
    (config : defs.Config) (w : World) : Prop :=
  match once (shared w) with
  | OnceIdle =>
      setupCalls (shared w) = 0 /\ instance (shared w) = None /\
      initError (shared w) = None /\ tasks w = [] /\
      Forall (fun pc => pc = InOnceDo) (callers w)
  | OnceRunning =>
      setupCalls (shared w) = 0 /\ instance (shared w) = None /\
      initError (shared w) = None /\ tasks w = [] /\
      exists i, callers w !! i = Some InClosure /\
                forall j pc, callers w !! j = Some pc -> j <> i -> pc = InOnceDo
  | OnceDone =>
      setupCalls (shared w) = 1 /\
      match snd (setup config) with
      | Some e =>
          initError (shared w) = Some (setupFailure e) /\
          instance (shared w) = None /\ tasks w = [] /\
          Forall (fun pc => pc = InOnceDo \/ pc = WaitLoop) (callers w)
      | None =>
          initError (shared w) = None /\ is_Some (instance (shared w)) /\
          length (tasks w) = 1 /\ Forall caller_settled (callers w)
      end
  end.

(** The store fields a step of the goroutine leaves alone. *)
Definition same_guard (s s' : Shared) : Prop :=
  once s' = once s /\ initError s' = initError s /\
  setupCalls s' = setupCalls s.

(** No goroutine got past a lookup and no record was published. *)
Definition undiscovered (w : World) : Prop :=
  Forall (fun pc => pc = LoopTop) (tasks w) /\
  forall h, instance (shared w) = Some h -> rs h = [].

End Client.

Arguments client {_}.
Arguments Shared {_}.
Arguments World {_}.
Arguments CallerPc {_}.

End pkggomicro.

(** ** Package inbound: lambda-handler.go *)

Module http.
Definition StatusOK : Z := 200.
Definition StatusCreated : Z := 201.
Definition StatusNoContent : Z := 204.
Definition StatusNotFound : Z := 404.
End http.

Module events.

Record APIGatewayProxyRequest : Type := mkRequest {
  Resource : string;
  HTTPMethod : string;
  PathParameters : gmap string string;
  Body : string
}.

Record APIGatewayProxyResponse : Type := mkResponse {
  StatusCode : Z;
  Headers : gmap string string;
  RespBody : string
}.

End events.

Module strings.

(** [strings.Contains(s, substr)] *)
Fixpoint Contains (s substr : string) : bool :=
  if String.prefix substr s then true
  else match s with
       | EmptyString => false
       | String _ s' => Contains s' substr
       end.

End strings.

Module transport.

(** [transport.GetCustomersResponse] and [transport.GetCustomerResponse]:
    both have the single field [Customers]. *)
Record GetCustomersResponse (A : Type) : Type := mkGetCustomersResponse {
  Customers : A
}.
Record GetCustomerResponse (A : Type) : Type := mkGetCustomerResponse {
  Customer_ : A
}.
Arguments mkGetCustomersResponse {A} _.
Arguments mkGetCustomerResponse {A} _.

End transport.

Module inbound.
Import events.

(** What the handler is built on and this file does not define: the
    use-case port (with the store [Store] its implementations work on),
    the [types], [utils] and [transport] helpers, [validateRequest],
    [strconv.ParseInt] and the JSON codec.  [DomainToCustomerJson] returns
    a pointer, which the handler dereferences. *)
Class Externals : Type := {
  Ctx : Type;
  error : Type;
  error_Error : error -> string;
  Store : Type;
  Customer : Type;
  CustomerList : Type;
  KPI : Type;
  CustomerJson : Type;
  CustomerJsonList : Type;
  KPIJson : Type;
  APIError : Type;
  ErrorKind : Type;
  (* ports.UseCases *)
  useCases_GetCustomers : Ctx -> Store -> (CustomerList * option error) * Store;
  useCases_GetCustomerByID : Ctx -> Z -> Store -> (Customer * option error) * Store;
  useCases_CreateCustomer : Ctx -> Customer -> Store -> option error * Store;
  useCases_UpdateCustomer : Ctx -> Customer -> Store -> option error * Store;
  useCases_DeleteCustomer : Ctx -> Z -> Store -> option error * Store;
  useCases_GetKPI : Ctx -> Store -> (KPI * option error) * Store;
  (* package types *)
  types_ErrInternal : ErrorKind;
  types_ErrInvalidInput : ErrorKind;
  types_ErrValidation : ErrorKind;
  types_NewError : ErrorKind -> string -> error -> error;
  types_NewAPIError : error -> APIError * Z;
  APIError_Error : APIError -> string;
  (* package utils, and validateRequest of this package *)
  utils_ValidateID : Z -> option error;
  validateRequest : CustomerJson -> option error;
  (* package transport *)
  transport_DomainListToCustomerJsonList : CustomerList -> CustomerJsonList;
  transport_DomainToCustomerJson : Customer -> option CustomerJson;
  transport_CustomerJsonToDomain : CustomerJson -> Customer;
  transport_ToGetKPIJson : KPI -> KPIJson;
  Customer_set_ID : Customer -> Z -> Customer;
  CustomerJson_zero : CustomerJson;
  (* strconv and encoding/json *)
  strconv_ParseInt : string -> Z -> Z -> Z * option error;
  json_Unmarshal : string -> CustomerJson -> CustomerJson * option error;
  json_Marshal_customers :
    transport.GetCustomersResponse CustomerJsonList -> string * option error;
  json_Marshal_customer :
    transport.GetCustomerResponse CustomerJson -> string * option error;
  json_Marshal_kpi : KPIJson -> string * option error
}.

Section Handler.
Context {ext : Externals}.

(** Handlers run against the store and may panic. *)
Definition M (A : Type) : Type := Store -> Go.outcome (A * Store).

Definition ret {A : Type} (a : A) : M A := fun st => Go.Returns (a, st).

Definition mbind {A B : Type} (m : M A) (k : A -> M B) : M B :=
  fun st =>
    match m st with
    | Go.Returns (a, st') => k a st'
    | Go.Panics => Go.Panics
    end.

Definition call {A : Type} (f : Store -> A * Store) : M A :=
  fun st => Go.Returns (f st).

Definition eval {A : Type} (o : Go.outcome A) : M A :=
  fun st =>
    match o with
    | Go.Returns a => Go.Returns (a, st)
    | Go.Panics => Go.Panics
    end.

Local Notation "x <- m ;; k" := (mbind m (fun x => k))
  (at level 100, m at next level, right associativity).

Definition Result : Type := APIGatewayProxyResponse * option error.

(** [events.APIGatewayProxyResponse{StatusCode: status, Body: apiErr.Error()}, nil] *)
Definition apiErrorResponse (err : error) : Result :=
  let '(apiErr, status) := types_NewAPIError err in
  (mkResponse status ∅ (APIError_Error apiErr), None).

Definition jsonHeaders : gmap string string :=
  {[ "Content-Type" := "application/json" ]}.

Definition GetCustomers (ctx : Ctx) : M Result :=
  r <- call (useCases_GetCustomers ctx) ;;
  let '(customers, err) := r in
  match err with
  | Some e => ret (apiErrorResponse e)
  | None =>
      let response :=
        transport.mkGetCustomersResponse
          (transport_DomainListToCustomerJsonList customers) in
      let '(body, err) := json_Marshal_customers response in
      match err with
      | Some e =>
          ret (apiErrorResponse
                 (types_NewError types_ErrInternal "Error marshalling response" e))
      | None => ret (mkResponse http.StatusOK jsonHeaders body, None)
      end
  end.

Definition pathID (request : APIGatewayProxyRequest) : Z * option error :=
  strconv_ParseInt (default "" (PathParameters request !! "id")) 10 64.

Definition GetCustomer (ctx : Ctx) (request : APIGatewayProxyRequest) : M Result :=
  let '(ID, err) := pathID request in
  match err with
  | Some e =>
      ret (apiErrorResponse
             (types_NewError types_ErrInvalidInput "invalid customer ID format" e))
  | None =>
      match utils_ValidateID ID with
      | Some e => ret (apiErrorResponse e)
      | None =>
          r <- call (useCases_GetCustomerByID ctx ID) ;;
          let '(customer, err) := r in
          match err with
          | Some e => ret (apiErrorResponse e)
          | None =>
              customerJson <-
                eval (Go.deref (transport_DomainToCustomerJson customer)) ;;
              let response := transport.mkGetCustomerResponse customerJson in
              let '(body, err) := json_Marshal_customer response in
              match err with
              | Some e =>
                  ret (apiErrorResponse
                         (types_NewError types_ErrInternal
                                         "Error marshalling response" e))
              | None => ret (mkResponse http.StatusOK jsonHeaders body, None)
              end
          end
      end
  end.

Definition createMessage (errStr : string) : string :=
  if strings.Contains errStr "Email' failed on the 'required' tag"
  then "invalid email format"
  else if strings.Contains errStr "Age' failed on the 'required' tag"
  then "invalid age"
  else if strings.Contains errStr "failed on the 'required' tag"
  then "missing required field"
  else if strings.Contains errStr "cannot unmarshal"
  then "invalid data type"
  else "request cannot be nil".

Definition CreateCustomer (ctx : Ctx) (request : APIGatewayProxyRequest) : M Result :=
  let '(req, err) := json_Unmarshal (Body request) CustomerJson_zero in
  match err with
  | Some e =>
      let message := createMessage (error_Error e) in
      ret (apiErrorResponse (types_NewError types_ErrValidation message e))
  | None =>
      match validateRequest req with
      | Some e => ret (apiErrorResponse e)
      | None =>
          err <- call (useCases_CreateCustomer ctx (transport_CustomerJsonToDomain req)) ;;
          match err with
          | Some e => ret (apiErrorResponse e)
          | None => ret (mkResponse http.StatusCreated jsonHeaders "", None)
          end
      end
  end.

Definition UpdateCustomer (ctx : Ctx) (request : APIGatewayProxyRequest) : M Result :=
  let '(ID, err) := pathID request in
  match err with
  | Some e =>
      ret (apiErrorResponse
             (types_NewError types_ErrInvalidInput "invalid customer ID format" e))
  | None =>
      match utils_ValidateID ID with
      | Some e => ret (apiErrorResponse e)
      | None =>
          let '(req, err) := json_Unmarshal (Body request) CustomerJson_zero in
          match err with
          | Some e =>
              ret (apiErrorResponse
                     (types_NewError types_ErrValidation "invalid request body" e))
          | None =>
              match validateRequest req with
              | Some e => ret (apiErrorResponse e)
              | None =>
                  let customer :=
                    Customer_set_ID (transport_CustomerJsonToDomain req) ID in
                  err <- call (useCases_UpdateCustomer ctx customer) ;;
                  match err with
                  | Some e => ret (apiErrorResponse e)
                  | None => ret (mkResponse http.StatusOK jsonHeaders "", None)
                  end
              end
          end
      end
  end.

Definition DeleteCustomer (ctx : Ctx) (request : APIGatewayProxyRequest) : M Result :=
  let '(ID, err) := pathID request in
  match err with
  | Some e =>
      ret (apiErrorResponse
             (types_NewError types_ErrInvalidInput "invalid customer ID format" e))
  | None =>
      match utils_ValidateID ID with
      | Some e => ret (apiErrorResponse e)
      | None =>
          err <- call (useCases_DeleteCustomer ctx ID) ;;
          match err with
          | Some e => ret (apiErrorResponse e)
          | None => ret (mkResponse http.StatusNoContent jsonHeaders "", None)
          end
      end
  end.

Definition GetKPI (ctx : Ctx) : M Result :=
  r <- call (useCases_GetKPI ctx) ;;
  let '(kpi, err) := r in
  match err with
  | Some e => ret (apiErrorResponse e)
  | None =>
      let response := transport_ToGetKPIJson kpi in
      let '(body, err) := json_Marshal_kpi response in
      match err with
      | Some e =>
          ret (apiErrorResponse
                 (types_NewError types_ErrInternal "Error marshalling response" e))
      | None => ret (mkResponse http.StatusOK jsonHeaders body, None)
      end
  end.

Definition HandleRequest (ctx : Ctx) (request : APIGatewayProxyRequest) : M Result :=
  if String.eqb (HTTPMethod request) "GET"
     && String.eqb (Resource request) "/customers"
  then GetCustomers ctx
  else if String.eqb (HTTPMethod request) "GET"
          && String.eqb (Resource request) "/customers/{id}"
  then GetCustomer ctx request
  else if String.eqb (HTTPMethod request) "POST"
          && String.eqb (Resource request) "/customers"
  then CreateCustomer ctx request
  else if String.eqb (HTTPMethod request) "PUT"
          && String.eqb (Resource request) "/customers/{id}"
  then UpdateCustomer ctx request
  else if String.eqb (HTTPMethod request) "DELETE"
          && String.eqb (Resource request) "/customers/{id}"
  then DeleteCustomer ctx request
  else if String.eqb (HTTPMethod request) "GET"
          && String.eqb (Resource request) "/customers/kpi"
  then GetKPI ctx
  else ret (mkResponse http.StatusNotFound ∅ "Not Found", None).



End Handler.
End inbound.

(** ** Concrete collaborators used to run the definitions *)

Module Fixtures.
Import Go.

Definition orders : registry.Service :=
  registry.mkService "orders"
    [registry.mkNode "n1" "10.0.0.5" {[ "port" := "9090" ]}].

Definition config : defs.Config := defs.mkConfig "consul:8500" "orders".

(** The registry lists nothing on the first two lookups and the record
    [orders] from the third on; a transport is identified by the address
    of its registry. *)
Definition scenario : pkggomicro.Externals :=
  {| pkggomicro.Registry := string;
     pkggomicro.consul_NewRegistry := fun addr => addr;
     pkggomicro.GetService := fun _ name k =>
       if decide (k < 2) then ([], None)
       else if String.eqb name "orders" then ([orders], None)
       else ([], None);
     pkggomicro.gmClient := string;
     pkggomicro.grpc_NewClient := fun r => r |}.

(** A registry that is never reachable. *)
Definition unreachable : pkggomicro.Externals :=
  {| pkggomicro.Registry := string;
     pkggomicro.consul_NewRegistry := fun addr => addr;
     pkggomicro.GetService := fun _ _ _ =>
       ([], Some (errorString "connection refused"));
     pkggomicro.gmClient := string;
     pkggomicro.grpc_NewClient := fun r => r |}.

(** A setup function that fails. *)
Definition failing_setup (_ : defs.Config) : option string * option error :=
  (None, Some (errorString "malformed registry address")).

(** A small in-memory implementation of what the lambda handler uses:
    customers are pairs of an id and a name; [strconv.ParseInt] knows the
    numeral 7. *)
Definition shop : inbound.Externals :=
  {| inbound.Ctx := unit;
     inbound.error := string;
     inbound.error_Error := fun e => e;
     inbound.Store := list (Z * string);
     inbound.Customer := Z * string;
     inbound.CustomerList := list (Z * string);
     inbound.KPI := nat;
     inbound.CustomerJson := Z * string;
     inbound.CustomerJsonList := list (Z * string);
     inbound.KPIJson := nat;
     inbound.APIError := string;
     inbound.ErrorKind := Z;
     inbound.useCases_GetCustomers := fun _ st => ((st, None), st);
     inbound.useCases_GetCustomerByID := fun _ ID st =>
       match list_find (fun c => fst c = ID) st with
       | Some (_, c) => ((c, None), st)
       | None => (((0%Z, ""), Some "customer not found"), st)
       end;
     inbound.useCases_CreateCustomer := fun _ c st => (None, st ++ [c]);
     inbound.useCases_UpdateCustomer := fun _ c st =>
       (None, c :: filter (fun c' => fst c' <> fst c) st);
     inbound.useCases_DeleteCustomer := fun _ ID st =>
       (None, filter (fun c => fst c <> ID) st);
     inbound.useCases_GetKPI := fun _ st => ((length st, None), st);
     inbound.types_ErrInternal := 500%Z;
     inbound.types_ErrInvalidInput := 400%Z;
     inbound.types_ErrValidation := 422%Z;
     inbound.types_NewError := fun _ msg cause => msg +:+ ": " +:+ cause;
     inbound.types_NewAPIError := fun e => (e, 500%Z);
     inbound.APIError_Error := fun e => e;
     inbound.utils_ValidateID := fun ID =>
       if decide (ID <= 0)%Z then Some "id must be positive" else None;
     inbound.validateRequest := fun _ => None;
     inbound.transport_DomainListToCustomerJsonList := fun l => l;
     inbound.transport_DomainToCustomerJson := fun c => Some c;
     inbound.transport_CustomerJsonToDomain := fun c => c;
     inbound.transport_ToGetKPIJson := fun k => k;
     inbound.Customer_set_ID := fun c ID => (ID, snd c);
     inbound.CustomerJson_zero := (0%Z, "");
     inbound.strconv_ParseInt := fun str _ _ =>
       if String.eqb str "7" then (7%Z, None) else (0%Z, Some "invalid syntax");
     inbound.json_Unmarshal := fun body _ =>
       if String.eqb body "" then ((0%Z, ""), Some "unexpected end of JSON input")
       else ((0%Z, body), None);
     inbound.json_Marshal_customers := fun _ => ("{customers}", None);
     inbound.json_Marshal_customer := fun r =>
       (snd (transport.Customer_ _ r), None);
     inbound.json_Marshal_kpi := fun _ => ("{kpi}", None) |}.

End Fixtures.

(** ** Package pkgcgrpcclient: the client configuration (second part of
       client.go) *)

Module pkgcgrpcclient.
Import Go.

(** [defs.TLSConfig] as [loadTLSConfig] reads it, and the [crypto/tls],
    [crypto/x509] and [os] functions it calls. *)
Class Externals : Type := {
  TLSConfig : Type;
  CertFile : TLSConfig -> string;
  KeyFile : TLSConfig -> string;
  CAFile : TLSConfig -> string;
  Certificate : Type;
  CertPool : Type;
  tls_LoadX509KeyPair : string -> string -> Certificate * option error;
  x509_NewCertPool : CertPool;
  os_ReadFile : string -> string * option error;
  AppendCertsFromPEM : CertPool -> string -> CertPool * bool
}.

Section Config.
Context {ext : Externals}.

(** [type config struct { host string; port int; tlsConfig *defs.TLSConfig }] *)
Record config : Type := mkconfig {
  host : string;
  port : Z;
  tlsConfig : option TLSConfig
}.

Definition newConfig (host : string) (port : Z) (tlsConfig : option TLSConfig)
  : config :=
  mkconfig host port tlsConfig.

Definition GetHost (c : config) : string := host c.
Definition SetHost (host' : string) (c : config) : config :=
  mkconfig host' (port c) (tlsConfig c).
Definition GetPort (c : config) : Z := port c.
Definition SetPort (port' : Z) (c : config) : config :=
  mkconfig (host c) port' (tlsConfig c).
Definition GetTLSConfig (c : config) : option TLSConfig := tlsConfig c.
Definition SetTLSConfig (tlsConfig' : option TLSConfig) (c : config) : config :=
  mkconfig (host c) (port c) tlsConfig'.

Definition Validate (c : config) : option error :=
  if decide (port c = 0%Z)
  then Some (errorString "gRPC client port is not configured")
  else None.

(** [tls.Config] as far as [loadTLSConfig] fills it. *)
Record tls_Config : Type := mktls_Config {
  Certificates : list Certificate;
  RootCAs : CertPool
}.

Definition loadTLSConfig (tlsConfig : option TLSConfig)
  : outcome (option tls_Config * option error) :=
  bind (deref tlsConfig) (fun t =>
    let '(certificate, err) := tls_LoadX509KeyPair (CertFile t) (KeyFile t) in
    match err with
    | Some e => Returns (None, Some e)
    | None =>
        let certPool := x509_NewCertPool in
        let '(ca, err) := os_ReadFile (CAFile t) in
        match err with
        | Some e => Returns (None, Some e)
        | None =>
            let '(certPool, ok) := AppendCertsFromPEM certPool ca in
            if negb ok
            then Returns (None,
                          Some (errorString "failed to append CA certificates"))
            else Returns (Some (mktls_Config [certificate] certPool), None)
        end
    end).

End Config.

Arguments config {_}.
Arguments tls_Config {_}.

End pkgcgrpcclient.

(** ** Package inbound: NewLambdaHandler *)

Module lambdahandler.
Import Go.

(** [pkgaws.Bootstrap()] and [stack.NewLambdaClient()]. *)
Class Externals : Type := {
  UseCases : Type;
  Stack : Type;
  LambdaClient : Type;
  pkgaws_Bootstrap : Stack * option error;
  NewLambdaClient : Stack -> option LambdaClient
}.

Section New.
Context {ext : Externals}.

Record LambdaHandler : Type := mkLambdaHandler {
  useCases : UseCases;
  lambdaClient : LambdaClient
}.

Definition NewLambdaHandler (useCases : UseCases)
  : option LambdaHandler * option error :=
  let '(stack, err) := pkgaws_Bootstrap in
  match err with
  | Some e =>
      (None, Some (wrapError ("failed to initialize AWS stack: " +:+ Error e) e))
  | None =>
      match NewLambdaClient stack with
      | None => (None, Some (errorString "failed to create Lambda client"))
      | Some lambdaClient => (Some (mkLambdaHandler useCases lambdaClient), None)
      end
  end.

End New.

Arguments LambdaHandler {_}.

End lambdahandler.

(** ** Further vocabulary *)

Module ClientVocab.
Import Go pkggomicro.

Section Vocab.
Context {ext : Externals}.

(** The two kinds of handle the code builds: the one of the closure
    (the transport [clt], no record) and the one of the goroutine (no
    transport, the discovered records). *)
Definition handle_shape (clt : option gmClient) (h : client) : Prop :=
  (c h = clt /\ rs h = []) \/ (c h = None /\ rs h <> []).

Definition shape_inv (clt : option gmClient) (w : World) : Prop :=
  (forall h, instance (shared w) = Some h -> handle_shape clt h) /\
  Forall (fun pc => forall regSrv, pc = Publishing regSrv -> regSrv <> [])
         (tasks w) /\
  Forall (fun pc => forall h e, pc = Returned (Some h, e) -> handle_shape clt h)
         (callers w).

(** Where the discovery stands when the first successful lookup is the
    one numbered [M] and lists [l]. *)
Definition discovery_inv (M : nat) (l : list registry.Service) (w : World)
  : Prop :=
  match tasks w with
  | [] => lookups (shared w) = 0
  | [LoopTop] => lookups (shared w) <= M
  | [Publishing regSrv] => regSrv = l /\ lookups (shared w) = S M
  | [Finished] =>
      lookups (shared w) = S M /\
      instance (shared w) = Some (mkClient None l)
  | _ => False
  end.

Definition is_caller (t : tid) : Prop :=
  match t with
  | Caller _ => True
  | Task _ => False
  end.

(** Where a call is after one more step of its own, when the guard is
    done and [instance] is non-nil. *)
Definition next_pc (s : Shared) (pc : CallerPc) : CallerPc :=
  match pc with
  | InOnceDo | InClosure => WaitLoop
  | WaitLoop => AfterLoop
  | AfterLoop => Returned (instance s, None)
  | Returned r => Returned r
  end.


(** Lines printed for a list of records: one per record and three per node. *)
Definition printed_lines (services : list registry.Service) : nat :=
  sum_list (map (fun s => 1 + 3 * length (registry.Nodes s)) services).

End Vocab.
End ClientVocab.

Module HandlerVocab.
Import events inbound.

(** The routes of the [switch] in HandleRequest. *)
Definition routes : list (string * string) :=
  [ ("GET", "/customers"); ("GET", "/customers/{id}");
    ("POST", "/customers"); ("PUT", "/customers/{id}");
    ("DELETE", "/customers/{id}"); ("GET", "/customers/kpi") ].

(** A response either has no header, or the JSON content type together
    with one of the three success codes. *)
Definition response_shape (resp : APIGatewayProxyResponse) : Prop :=
  Headers resp = ∅ \/
  (Headers resp = jsonHeaders /\
   (StatusCode resp = http.StatusOK \/ StatusCode resp = http.StatusCreated \/
    StatusCode resp = http.StatusNoContent)).

Section Vocab.
Context {ext : Externals}.

Definition returns_shaped (o : Go.outcome (Result * Store)) : Prop :=
  match o with
  | Go.Returns ((resp, _), _) => response_shape resp
  | Go.Panics => True
  end.

(** The run returned an error response and left the store as it was. *)
Definition rejected (st : Store) (o : Go.outcome (Result * Store)) : Prop :=
  exists e, o = Go.Returns (apiErrorResponse e, st).

(** The path id of the request does not parse or does not validate. *)
Definition bad_path_id (request : APIGatewayProxyRequest) : Prop :=
  snd (pathID request) <> None \/
  utils_ValidateID (fst (pathID request)) <> None.

(** The body of the request does not decode or does not validate. *)
Definition bad_body (request : APIGatewayProxyRequest) : Prop :=
  snd (json_Unmarshal (Body request) CustomerJson_zero) <> None \/
  validateRequest (fst (json_Unmarshal (Body request) CustomerJson_zero))
  <> None.

End Vocab.
End HandlerVocab.

(** ** What each handler returns, case by case *)

Module HandlerContracts.
Import events inbound HandlerVocab.

Section Contracts.
Context {ext : Externals}.













End Contracts.
End HandlerContracts.

(** ** More concrete collaborators *)

Module MoreFixtures.
Import Go.

(** A file system with a key pair and a CA file; a pool is the list of
    the PEM texts appended to it, and the empty text holds no certificate. *)
Definition pki : pkgcgrpcclient.Externals :=
  {| pkgcgrpcclient.TLSConfig := string * string * string;
     pkgcgrpcclient.CertFile := fun t => fst (fst t);
     pkgcgrpcclient.KeyFile := fun t => snd (fst t);
     pkgcgrpcclient.CAFile := fun t => snd t;
     pkgcgrpcclient.Certificate := string;
     pkgcgrpcclient.CertPool := list string;
     pkgcgrpcclient.tls_LoadX509KeyPair := fun cert key =>
       if String.eqb cert "client.crt" && String.eqb key "client.key"
       then ("client", None)
       else ("", Some (errorString "open: no such file or directory"));
     pkgcgrpcclient.x509_NewCertPool := [];
     pkgcgrpcclient.os_ReadFile := fun name =>
       if String.eqb name "ca.pem" then ("CA", None)
       else if String.eqb name "empty.pem" then ("", None)
       else ("", Some (errorString "open: no such file or directory"));
     pkgcgrpcclient.AppendCertsFromPEM := fun pool pem =>
       if String.eqb pem "" then (pool, false) else (pool ++ [pem], true) |}.



(** An AWS stack that boots and hands out a Lambda client. *)
Definition aws : lambdahandler.Externals :=
  {| lambdahandler.UseCases := string;
     lambdahandler.Stack := unit;
     lambdahandler.LambdaClient := string;
     lambdahandler.pkgaws_Bootstrap := (tt, None);
     lambdahandler.NewLambdaClient := fun _ => Some "lambda" |}.

End MoreFixtures.

(** * Properties of client.go *)

Module ClientProps.
Import Go pkggomicro.

Section Lookup.
Context {ext : Externals}.

Lemma getRegisteredServices_error (config : defs.Config) (k : nat) :
  snd (fst (getRegisteredServices config k)) <> None <-> lookup_fails config k.
Proof.
  unfold getRegisteredServices, lookup_fails.
  destruct (GetService _ _ k) as [services [e|]]; simpl.
  - split; [intros _; left |]; done.
  - case_decide as Hlen; simpl.
    + split; [intros _; right; by apply nil_length_inv | done].
    + split; [done |]. intros [? | ->]; done.
Qed.

Lemma lookup_fails_dec (config : defs.Config) (k : nat) :
  lookup_fails config k \/ ~ lookup_fails config k.
Proof.
  unfold lookup_fails.
  destruct (GetService _ _ k) as [[|s l] [e|]]; simpl; auto.
  right. intros [? | ?]; done.
Qed.

Lemma getRegisteredServices_ok (config : defs.Config) (k : nat) :
  let resp := GetService (consul_NewRegistry (defs.GetConsulAddress config))
                         (defs.GetServerName config) k in
  snd resp = None -> fst resp <> [] ->
  fst (getRegisteredServices config k) = (fst resp, None).
Proof.
  unfold getRegisteredServices.
  destruct (GetService _ _ k) as [services err]; simpl.
  intros -> Hne. case_decide as Hlen; [| done].
  by apply nil_length_inv in Hlen.
Qed.

(** C4: the lookup step reports an error exactly when the registry
    reports one or lists no record; when the registry lists at least one
    record and reports no error, the step returns that very list with a
    nil error. *)
Theorem getRegisteredServices_fails_iff (config : defs.Config) (k : nat) :
  let resp := GetService (consul_NewRegistry (defs.GetConsulAddress config))
                         (defs.GetServerName config) k in
  (snd (fst (getRegisteredServices config k)) <> None
     <-> (snd resp <> None \/ fst resp = []))
  /\ (snd resp = None -> fst resp <> [] ->
      fst (getRegisteredServices config k) = (fst resp, None)).
Proof.
  split; [apply getRegisteredServices_error | apply getRegisteredServices_ok].
Qed.

(** C7: on a handle with at least one record the accessor returns the
    name of the first record; on a handle without records it panics. *)
Theorem GetServerName_first_record (h : client) :
  match rs h with
  | s :: _ => GetServerName h = Returns (registry.Name s)
  | [] => GetServerName h = Panics
  end.
Proof. unfold GetServerName, index. by destruct (rs h). Qed.

End Lookup.

(** ** The background goroutine on its own *)

Section Discovery.
Context {ext : Externals}.

Lemma task_step_failure (config : defs.Config) (s : Shared) :
  lookup_fails config (lookups s) ->
  exists s', task_step config LoopTop s = (LoopTop, s') /\
             instance s' = instance s /\ lookups s' = S (lookups s) /\
             same_guard s s'.
Proof.
  intros Hf. apply getRegisteredServices_error in Hf.
  unfold task_step. simpl lookups.
  destruct (getRegisteredServices config (lookups s)) as [[regSrv [e|]] out];
    [| done].
  eexists. split; [done |]. by repeat split.
Qed.

Lemma task_step_success (config : defs.Config) (s : Shared)
    (l : list registry.Service) :
  GetService (consul_NewRegistry (defs.GetConsulAddress config))
             (defs.GetServerName config) (lookups s) = (l, None) ->
  l <> [] ->
  exists s', task_step config LoopTop s = (Publishing l, s') /\
             instance s' = instance s /\ lookups s' = S (lookups s) /\
             same_guard s s'.
Proof.
  intros Hresp Hne.
  pose proof (getRegisteredServices_ok config (lookups s)) as Hok.
  simpl in Hok. rewrite Hresp in Hok. specialize (Hok eq_refl Hne).
  unfold task_step. simpl lookups.
  destruct (getRegisteredServices config (lookups s)) as [[regSrv err] out].
  simpl in Hok. injection Hok as -> ->.
  eexists. split; [done |]. by repeat split.
Qed.

Lemma task_step_publish (config : defs.Config) (s : Shared)
    (regSrv : list registry.Service) :
  exists s', task_step config (Publishing regSrv) s = (Finished, s') /\
             instance s' = Some (mkClient None regSrv) /\
             lookups s' = lookups s /\ same_guard s s'.
Proof. eexists. split; [done |]. by repeat split. Qed.

Lemma attempt_LoopTop (fuel : nat) (config : defs.Config) (s : Shared) :
  attemptGettingRegisteredServices (S fuel) config LoopTop s
  = attemptGettingRegisteredServices fuel config
      (task_step config LoopTop s).1 (task_step config LoopTop s).2.
Proof.
  cbn [attemptGettingRegisteredServices].
  by destruct (task_step config LoopTop s).
Qed.

Lemma attempt_Publishing (fuel : nat) (config : defs.Config) (s : Shared)
    (regSrv : list registry.Service) :
  attemptGettingRegisteredServices (S fuel) config (Publishing regSrv) s
  = attemptGettingRegisteredServices fuel config
      (task_step config (Publishing regSrv) s).1
      (task_step config (Publishing regSrv) s).2.
Proof. done. Qed.

Lemma attempt_Finished (fuel : nat) (config : defs.Config) (s : Shared) :
  attemptGettingRegisteredServices fuel config Finished s = (Finished, s).
Proof. by destruct fuel. Qed.

(** C2: when the lookup first succeeds, with a non-empty list [l], after
    [M] failed attempts, the goroutine publishes a handle holding exactly
    [l] and ends, having made [M + 1] lookups however long it is let run. *)
Theorem discovery_stops_at_first_success
    (config : defs.Config) (M : nat) (l : list registry.Service) (s : Shared) :
  (forall k, k < M -> lookup_fails config (lookups s + k)) ->
  GetService (consul_NewRegistry (defs.GetConsulAddress config))
             (defs.GetServerName config) (lookups s + M) = (l, None) ->
  l <> [] ->
  forall fuel, M + 2 <= fuel ->
  exists s',
    attemptGettingRegisteredServices fuel config LoopTop s = (Finished, s') /\
    instance s' = Some (mkClient None l) /\
    lookups s' = lookups s + M + 1.
Proof.
  revert s. induction M as [|M IH]; intros s Hfail Hresp Hne fuel Hfuel.
  - destruct fuel as [|[|fuel]]; [lia | lia |].
    rewrite Nat.add_0_r in Hresp.
    destruct (task_step_success config s l Hresp Hne)
      as (s1 & Hstep1 & Hi1 & Hl1 & _).
    destruct (task_step_publish config s1 l) as (s2 & Hstep2 & Hi2 & Hl2 & _).
    exists s2. rewrite attempt_LoopTop, Hstep1. simpl fst; simpl snd.
    rewrite attempt_Publishing, Hstep2. simpl fst; simpl snd.
    rewrite attempt_Finished.
    split; [done |]. split; [done | lia].
  - destruct fuel as [|fuel]; [lia |].
    assert (Hf0 : lookup_fails config (lookups s)).
    { specialize (Hfail 0). rewrite Nat.add_0_r in Hfail. apply Hfail. lia. }
    destruct (task_step_failure config s Hf0) as (s1 & Hstep1 & Hi1 & Hl1 & _).
    destruct (IH s1) with (fuel := fuel) as (s' & Hrun & Hi & Hl).
    + intros k Hk. rewrite Hl1.
      replace (S (lookups s) + k) with (lookups s + S k) by lia.
      apply Hfail. lia.
    + rewrite Hl1. by replace (S (lookups s) + M) with (lookups s + S M) by lia.
    + done.
    + lia.
    + exists s'. rewrite attempt_LoopTop, Hstep1. simpl fst; simpl snd.
      rewrite Hrun. split; [done |]. split; [done | lia].
Qed.

Lemma attempt_all_fail (config : defs.Config) :
  (forall k, lookup_fails config k) ->
  forall fuel s, exists s',
    attemptGettingRegisteredServices fuel config LoopTop s = (LoopTop, s') /\
    instance s' = instance s /\ lookups s' = lookups s + fuel.
Proof.
  intros Hfail. induction fuel as [|fuel IH]; intros s.
  - exists s. split; [done |]. split; [done | simpl; lia].
  - destruct (task_step_failure config s (Hfail _)) as (s1 & Hstep1 & Hi1 & Hl1 & _).
    destruct (IH s1) as (s' & Hrun & Hi & Hl).
    exists s'. rewrite attempt_LoopTop, Hstep1. simpl fst; simpl snd.
    rewrite Hrun. split; [done |]. split; [congruence | lia].
Qed.

Lemma task_step_frame (config : defs.Config) (pc : TaskPc) (s : Shared) :
  same_guard s (task_step config pc s).2 /\
  (is_Some (instance s) -> is_Some (instance (task_step config pc s).2)).
Proof.
  destruct pc as [|regSrv|]; [| by repeat split; eauto | by repeat split].
  unfold task_step. simpl lookups.
  destruct (getRegisteredServices config (lookups s)) as [[regSrv [e|]] out];
    by repeat split.
Qed.

End Discovery.

(** ** The process under every schedule *)

Section Process.
Context {ext : Externals}.
Variable setup : defs.Config -> option gmClient * option error.
Variable config : defs.Config.

Local Abbreviation step := (pkggomicro.step setup config).
Local Abbreviation run := (pkggomicro.run setup config).
Local Abbreviation guard_inv := (pkggomicro.guard_inv setup config).

Lemma run_app (sched1 sched2 : list tid) (w : World) :
  run (sched1 ++ sched2) w = run sched2 (run sched1 w).
Proof. apply foldl_app. Qed.

Lemma run_cons (t : tid) (sched : list tid) (w : World) :
  run (t :: sched) w = run sched (step t w).
Proof. done. Qed.

Lemma caller_unchanged (w : World) (i : nat) (pc : CallerPc) :
  callers w !! i = Some pc ->
  mkWorld (shared w) (<[i := pc]> (callers w)) (tasks w ++ []) = w.
Proof.
  intros Hpc. rewrite app_nil_r, list_insert_id by done. by destruct w.
Qed.

(** Where a caller can be, given the state of the guard. *)
Lemma guard_inv_caller (w : World) (i : nat) (pc : CallerPc) :
  guard_inv w -> callers w !! i = Some pc ->
  match pc with
  | InOnceDo => True
  | InClosure => once (shared w) = OnceRunning
  | WaitLoop => once (shared w) = OnceDone
  | AfterLoop | Returned _ =>
      once (shared w) = OnceDone /\ snd (setup config) = None /\
      is_Some (instance (shared w)) /\ caller_settled pc
  end.
Proof.
  unfold pkggomicro.guard_inv. intros Hinv Hpc.
  destruct (once (shared w)) eqn:Hon.
  - destruct Hinv as (_ & _ & _ & _ & Hall).
    rewrite Forall_lookup in Hall. by rewrite (Hall i pc Hpc).
  - destruct Hinv as (_ & _ & _ & _ & i0 & Hi0 & Hothers).
    destruct (decide (i = i0)) as [-> | Hne].
    + rewrite Hi0 in Hpc. by injection Hpc as <-.
    + by rewrite (Hothers i pc Hpc Hne).
  - destruct Hinv as (_ & Hinv). destruct (snd (setup config)) as [e|].
    + destruct Hinv as (_ & _ & _ & Hall). rewrite Forall_lookup in Hall.
      by destruct (Hall i pc Hpc) as [-> | ->].
    + destruct Hinv as (_ & Hsome & _ & Hall). rewrite Forall_lookup in Hall.
      specialize (Hall i pc Hpc). by destruct pc.
Qed.

Lemma guard_inv_init (N : nat) : guard_inv (init N).
Proof.
  unfold pkggomicro.guard_inv. simpl. repeat split.
  by apply Forall_replicate.
Qed.

Lemma guard_inv_caller_step (w : World) (i : nat) :
  guard_inv w -> guard_inv (step (Caller i) w).
Proof.
  intros Hinv. unfold pkggomicro.step.
  destruct (callers w !! i) as [pc|] eqn:Hpc; [| done].
  pose proof (guard_inv_caller w i pc Hinv Hpc) as Hat.
  pose proof (lookup_lt_Some _ _ _ Hpc) as Hlt.
  destruct pc as [| | | |r]; unfold newClient_step.
  - (* once.Do *)
    unfold pkggomicro.guard_inv in Hinv |- *.
    destruct (once (shared w)) eqn:Hon.
    + destruct Hinv as (Hc & Hi & He & Ht & Hall). simpl.
      rewrite Ht. repeat split; try done.
      exists i. split; [by apply list_lookup_insert_eq |].
      intros j pc Hj Hne. rewrite list_lookup_insert_ne in Hj by done.
      rewrite Forall_lookup in Hall. by apply (Hall j).
    + cbv beta iota zeta. rewrite caller_unchanged by done.
      unfold pkggomicro.guard_inv. by rewrite Hon.
    + simpl. rewrite Hon. destruct Hinv as (Hc & Hinv). split; [done |].
      rewrite app_nil_r.
      destruct (snd (setup config)) as [e|].
      * destruct Hinv as (? & ? & ? & Hall). repeat split; try done.
        apply Forall_insert; [done | by right].
      * destruct Hinv as (? & ? & ? & Hall). repeat split; try done.
        by apply Forall_insert.
  - (* the closure *)
    unfold pkggomicro.guard_inv in Hinv |- *. rewrite Hat in Hinv.
    destruct Hinv as (Hc & Hi & He & Ht & i0 & Hi0 & Hothers).
    assert (i = i0) as <-.
    { destruct (decide (i = i0)) as [|Hne]; [done |].
      by pose proof (Hothers i InClosure Hpc Hne). }
    assert (Hrest : forall j pc, <[i := WaitLoop]> (callers w) !! j = Some pc ->
                                 pc = InOnceDo \/ pc = WaitLoop).
    { intros j pc Hj. destruct (decide (i = j)) as [<- | Hne].
      - rewrite list_lookup_insert_eq in Hj by done. right. congruence.
      - rewrite list_lookup_insert_ne in Hj by done. left.
        by apply (Hothers j pc Hj). }
    unfold once_closure.
    destruct (setup config) as [clt [e|]] eqn:Hsetup; simpl.
    + rewrite Hc, Hi, Ht. repeat split; try done.
      by apply Forall_lookup.
    + rewrite Hc, He, Ht. repeat split; try done.
      apply Forall_lookup. intros j pc Hj.
      by destruct (Hrest j pc Hj) as [-> | ->].
  - (* the wait loop *)
    destruct (instance (shared w)) as [h|] eqn:Hh; cbv beta iota zeta;
      [| by rewrite caller_unchanged].
    unfold pkggomicro.guard_inv in Hinv |- *. rewrite Hat in Hinv.
    destruct Hinv as (Hc & Hinv). simpl.
    rewrite Hat, Hh, app_nil_r. split; [done |].
    destruct (snd (setup config)) as [e|].
    + destruct Hinv as (_ & Hnone & _). by rewrite Hh in Hnone.
    + destruct Hinv as (? & ? & ? & Hall). repeat split; try done.
      by apply Forall_insert.
  - (* the return statement *)
    destruct Hat as (Hon & Hok & Hsome & _).
    unfold pkggomicro.guard_inv in Hinv |- *. rewrite Hon, Hok in Hinv.
    destruct Hinv as (Hc & He & _ & Ht & Hall). simpl.
    rewrite Hon, Hok, app_nil_r. repeat split; try done.
    by apply Forall_insert.
  - cbv beta iota zeta. by rewrite caller_unchanged.
Qed.

Lemma guard_inv_task_step (w : World) (j : nat) :
  guard_inv w -> guard_inv (step (Task j) w).
Proof.
  intros Hinv. unfold pkggomicro.step.
  destruct (tasks w !! j) as [pc|] eqn:Hpc; [| done].
  destruct (task_step_frame config pc (shared w)) as ((Hon & He & Hc) & Hmono).
  destruct (task_step config pc (shared w)) as [pc' s'] eqn:Hstep.
  simpl in Hon, He, Hc, Hmono.
  unfold pkggomicro.guard_inv in Hinv |- *. simpl. rewrite Hon, He, Hc.
  destruct (once (shared w)).
  - destruct Hinv as (_ & _ & _ & Ht & _). by rewrite Ht in Hpc.
  - destruct Hinv as (_ & _ & _ & Ht & _). by rewrite Ht in Hpc.
  - destruct Hinv as (? & Hinv). split; [done |].
    destruct (snd (setup config)) as [e|].
    + destruct Hinv as (_ & _ & Ht & _). by rewrite Ht in Hpc.
    + destruct Hinv as (? & ? & ? & ?).
      rewrite length_insert. repeat split; auto.
Qed.

Lemma guard_inv_run (sched : list tid) (w : World) :
  guard_inv w -> guard_inv (run sched w).
Proof.
  revert w. induction sched as [|t sched IH]; intros w Hinv; [done |].
  rewrite run_cons. apply IH.
  destruct t; [by apply guard_inv_caller_step | by apply guard_inv_task_step].
Qed.

(** A step of a caller starts at most the discovery goroutine and
    publishes at most the record-less initial handle. *)
Lemma newClient_step_effect (pc : CallerPc) (s : Shared) :
  Forall (fun t => t = LoopTop) (newClient_step setup config pc s).2 /\
  (instance (newClient_step setup config pc s).1.2 = instance s \/
   exists clt, instance (newClient_step setup config pc s).1.2
               = Some (mkClient clt [])).
Proof.
  destruct pc as [| | | |r]; unfold newClient_step.
  - destruct (once s); simpl; (split; [by constructor | by left]).
  - unfold once_closure. destruct (setup config) as [clt [e|]]; simpl.
    + split; [by constructor | by left].
    + split; [by repeat constructor | right; by exists clt].
  - destruct (instance s) eqn:Hh; simpl; (split; [by constructor | by left]).
  - simpl. split; [by constructor | by left].
  - simpl. split; [by constructor | by left].
Qed.

Lemma undiscovered_step (t : tid) (w : World) :
  (forall k, lookup_fails config k) ->
  undiscovered w -> undiscovered (step t w).
Proof.
  intros Hfail [Htasks Hrs]. destruct t as [i|j]; unfold pkggomicro.step.
  - destruct (callers w !! i) as [pc|]; [| done].
    destruct (newClient_step_effect pc (shared w)) as [Hsp Hinst].
    destruct (newClient_step setup config pc (shared w)) as [[pc' s'] spawned].
    simpl in Hsp, Hinst. split; simpl.
    + by apply Forall_app.
    + intros h Hh. destruct Hinst as [Heq | [clt Heq]]; rewrite Heq in Hh.
      * by apply Hrs.
      * by injection Hh as <-.
  - destruct (tasks w !! j) as [pc|] eqn:Hpc; [| done].
    rewrite Forall_lookup in Htasks. rewrite (Htasks j pc Hpc).
    destruct (task_step_failure config (shared w) (Hfail _))
      as (s' & -> & Hi & _).
    split; simpl.
    + apply Forall_insert; [by apply Forall_lookup | done].
    + by rewrite Hi.
Qed.

Lemma undiscovered_run (sched : list tid) (w : World) :
  (forall k, lookup_fails config k) ->
  undiscovered w -> undiscovered (run sched w).
Proof.
  intros Hfail. revert w.
  induction sched as [|t sched IH]; intros w Hw; [done |].
  rewrite run_cons. by apply IH, undiscovered_step.
Qed.

Lemma undiscovered_init (N : nat) : undiscovered (init N).
Proof. split; [by constructor | done]. Qed.

(** A caller waiting on a nil [instance] polls without effect. *)
Lemma poll_nil (w : World) (i n : nat) :
  callers w !! i = Some WaitLoop -> instance (shared w) = None ->
  run (replicate n (Caller i)) w = w.
Proof.
  intros Hpc Hnil. induction n as [|n IH]; [done |].
  simpl replicate. rewrite run_cons.
  replace (step (Caller i) w) with w; [done |].
  unfold pkggomicro.step, newClient_step. rewrite Hpc, Hnil.
  by rewrite caller_unchanged.
Qed.

Lemma poll_ready (w : World) (i : nat) :
  callers w !! i = Some WaitLoop -> is_Some (instance (shared w)) ->
  callers (step (Caller i) w) !! i = Some AfterLoop.
Proof.
  intros Hpc [h Hh]. unfold pkggomicro.step, newClient_step.
  rewrite Hpc, Hh. simpl. apply list_lookup_insert_eq.
  by apply lookup_lt_Some in Hpc.
Qed.

Lemma return_current (w : World) (i : nat) :
  callers w !! i = Some AfterLoop ->
  callers (step (Caller i) w) !! i
  = Some (Returned (instance (shared w), None)).
Proof.
  intros Hpc. unfold pkggomicro.step, newClient_step.
  rewrite Hpc. simpl. apply list_lookup_insert_eq.
  by apply lookup_lt_Some in Hpc.
Qed.

(** The publishing step of the goroutine. *)
Lemma publish_step (w : World) (j : nat) (regSrv : list registry.Service) :
  tasks w !! j = Some (Publishing regSrv) ->
  instance (shared (step (Task j) w)) = Some (mkClient None regSrv) /\
  tasks (step (Task j) w) !! j = Some Finished /\
  callers (step (Task j) w) = callers w.
Proof.
  intros Hpc. unfold pkggomicro.step. rewrite Hpc. simpl.
  repeat split. apply list_lookup_insert_eq. by apply lookup_lt_Some in Hpc.
Qed.

End Process.

(** ** The claims about the process *)

Section Program.
Context {ext : Externals}.

(** The closure with a failing setup call: when [setup] fails with [e],
    the closure records [setupFailure e] in [initError], publishes no
    handle and starts no goroutine, and no call of newClient ever
    returns. *)
Theorem failed_setup_blocks_every_call
    (setup : defs.Config -> option gmClient * option error)
    (config : defs.Config) (e : error) (N : nat) (sched : list tid) :
  snd (setup config) = Some e ->
  let w := run setup config sched (init N) in
  (once (shared w) = OnceDone ->
   initError (shared w) = Some (setupFailure e) /\
   instance (shared w) = None /\ tasks w = []) /\
  (forall i pc, callers w !! i = Some pc ->
                pc = InOnceDo \/ pc = InClosure \/ pc = WaitLoop).
Proof.
  intros Hfail w.
  pose proof (guard_inv_run setup config sched (init N)
                (guard_inv_init setup config N)) as Hinv.
  fold w in Hinv. split.
  - intros Hon. unfold guard_inv in Hinv. rewrite Hon, Hfail in Hinv.
    by destruct Hinv as (_ & ? & ? & ? & _).
  - intros i pc Hpc.
    pose proof (guard_inv_caller setup config w i pc Hinv Hpc) as Hat.
    destruct pc as [| | | |r]; auto.
    + destruct Hat as (_ & Hok & _). congruence.
    + destruct Hat as (_ & Hok & _). congruence.
Qed.

(** C3: the publishing step of the goroutine overwrites [instance] with a
    handle made of the discovered records alone; whatever handle was
    there, its transport included, is gone. *)
Theorem discovery_replaces_handle
    (setup : defs.Config -> option gmClient * option error)
    (config : defs.Config) (w : World) (j : nat)
    (regSrv : list registry.Service) :
  tasks w !! j = Some (Publishing regSrv) ->
  let w' := step setup config (Task j) w in
  instance (shared w') = Some (mkClient None regSrv) /\
  (forall h, instance (shared w') = Some h ->
             GetClient h = None /\ rs h = regSrv) /\
  tasks w' !! j = Some Finished.
Proof.
  intros Hpc w'.
  destruct (publish_step setup config w j regSrv Hpc) as (Hi & Ht & _).
  fold w' in Hi, Ht. split; [done |]. split; [| done].
  intros h Hh. rewrite Hi in Hh. by injection Hh as <-.
Qed.

(** C5: when every lookup fails, the goroutine is at the top of its loop
    after any number of iterations, having made one lookup per iteration
    and left [instance] alone; and in the process, under every schedule,
    no goroutine leaves the loop and no handle with records is published. *)
Theorem discovery_never_ends_when_lookups_fail (config : defs.Config) :
  (forall k, lookup_fails config k) ->
  (forall fuel s, exists s',
      attemptGettingRegisteredServices fuel config LoopTop s = (LoopTop, s') /\
      instance s' = instance s /\ lookups s' = lookups s + fuel) /\
  (forall N sched,
      let w := run setupClient config sched (init N) in
      Forall (fun pc => pc = LoopTop) (tasks w) /\
      forall h, instance (shared w) = Some h -> rs h = []).
Proof.
  intros Hfail. split; [by apply attempt_all_fail |].
  intros N sched.
  apply (undiscovered_run setupClient config sched (init N) Hfail),
        undiscovered_init.
Qed.

(** C6: a call that has returned reports a non-nil handle and a nil
    error, and [instance] is non-nil; the return statement hands out the
    value [instance] has at that moment; a call in the wait loop leaves it
    as soon as it polls a non-nil [instance], and while [instance] is nil
    any number of polls leaves it where it is. *)
Theorem newClient_waits_for_instance
    (setup : defs.Config -> option gmClient * option error)
    (config : defs.Config) (N : nat) (sched : list tid) (i : nat) :
  let w := run setup config sched (init N) in
  (forall r, callers w !! i = Some (Returned r) ->
             snd r = None /\ is_Some (fst r) /\ is_Some (instance (shared w))) /\
  (callers w !! i = Some AfterLoop ->
   is_Some (instance (shared w)) /\
   callers (step setup config (Caller i) w) !! i
   = Some (Returned (instance (shared w), None))) /\
  (callers w !! i = Some WaitLoop -> is_Some (instance (shared w)) ->
   callers (step setup config (Caller i) w) !! i = Some AfterLoop) /\
  (callers w !! i = Some WaitLoop -> instance (shared w) = None ->
   forall n, run setup config (replicate n (Caller i)) w = w).
Proof.
  intros w.
  pose proof (guard_inv_run setup config sched (init N)
                (guard_inv_init setup config N)) as Hinv.
  fold w in Hinv. split; [| split; [| split]].
  - intros r Hpc.
    by destruct (guard_inv_caller setup config w i _ Hinv Hpc)
      as (_ & _ & ? & ? & ?).
  - intros Hpc. split; [| by apply return_current].
    by destruct (guard_inv_caller setup config w i _ Hinv Hpc) as (_ & _ & ? & _).
  - by apply poll_ready.
  - intros. by apply poll_nil.
Qed.

(** C8: for any number of callers and under every schedule, the setup
    function is called at most once and at most one goroutine is started;
    once the guard is done the setup function was called exactly once,
    the initial handle is published and exactly one goroutine exists; and
    a caller is past [once.Do] only when the guard is done. *)
Theorem setup_sequence_runs_once
    (config : defs.Config) (N : nat) (sched : list tid) :
  let w := run setupClient config sched (init N) in
  setupCalls (shared w) <= 1 /\ length (tasks w) <= 1 /\
  (once (shared w) = OnceDone ->
   setupCalls (shared w) = 1 /\ length (tasks w) = 1 /\
   is_Some (instance (shared w))) /\
  (once (shared w) <> OnceDone ->
   setupCalls (shared w) = 0 /\ tasks w = [] /\ instance (shared w) = None) /\
  (forall i pc, callers w !! i = Some pc ->
                pc <> InOnceDo -> pc <> InClosure ->
                once (shared w) = OnceDone).
Proof.
  intros w.
  pose proof (guard_inv_run setupClient config sched (init N)
                (guard_inv_init setupClient config N)) as Hinv.
  fold w in Hinv.
  assert (Hcases :
    (once (shared w) = OnceDone /\ setupCalls (shared w) = 1 /\
     length (tasks w) = 1 /\ is_Some (instance (shared w))) \/
    (once (shared w) <> OnceDone /\ setupCalls (shared w) = 0 /\
     tasks w = [] /\ instance (shared w) = None)).
  { unfold guard_inv in Hinv. destruct (once (shared w)).
    - right. by destruct Hinv as (? & ? & _ & ? & _).
    - right. by destruct Hinv as (? & ? & _ & ? & _).
    - left. simpl in Hinv. by destruct Hinv as (? & _ & ? & ? & _). }
  split; [| split; [| split; [| split]]].
  - destruct Hcases as [(_ & -> & _) | (_ & -> & _)]; lia.
  - destruct Hcases as [(_ & _ & -> & _) | (_ & _ & -> & _)]; simpl; lia.
  - intros Hon. by destruct Hcases as [(_ & ? & ? & ?) | (? & _)].
  - intros Hon. by destruct Hcases as [(? & _) | (_ & ? & ? & ?)].
  - intros i pc Hpc Hne1 Hne2.
    pose proof (guard_inv_caller setupClient config w i pc Hinv Hpc) as Hat.
    destruct pc as [| | | |r]; try done; by destruct Hat.
Qed.

(** C9: the setup function returns a nil error for every configuration;
    so in the process, under every schedule, [initError] stays nil and a
    finished guard always comes with a published handle. *)
Theorem setupClient_never_fails (config : defs.Config) :
  snd (setupClient config) = None /\
  forall N sched,
    let w := run setupClient config sched (init N) in
    initError (shared w) = None /\
    (once (shared w) = OnceDone -> is_Some (instance (shared w))).
Proof.
  split; [done |]. intros N sched w.
  pose proof (guard_inv_run setupClient config sched (init N)
                (guard_inv_init setupClient config N)) as Hinv.
  fold w in Hinv. unfold guard_inv in Hinv.
  destruct (once (shared w)); simpl in Hinv.
  - by destruct Hinv as (_ & _ & ? & _).
  - by destruct Hinv as (_ & _ & ? & _).
  - by destruct Hinv as (_ & ? & ? & _).
Qed.

End Program.
End ClientProps.

(** * Properties of lambda-handler.go *)

Module HandlerProps.
Import events inbound.

Section Handlers.
Context {ext : Externals}.











End Handlers.
End HandlerProps.

(** * The properties at concrete inputs *)

Module Runs.
Import Go pkggomicro Fixtures ClientProps.

(** Setup fails; callers 0 and 1 are scheduled five times in all. *)
Lemma failed_setup_blocks_every_call_witness :
  let w := run (ext := scenario) failing_setup config
               [Caller 0; Caller 0; Caller 0; Caller 1; Caller 1] (init 2) in
  (once (shared w) = OnceDone ->
   initError (shared w)
   = Some (setupFailure (errorString "malformed registry address")) /\
   instance (shared w) = None /\ tasks w = []) /\
  (forall i pc, callers w !! i = Some pc ->
                pc = InOnceDo \/ pc = InClosure \/ pc = WaitLoop).
Proof.
  apply (failed_setup_blocks_every_call (ext := scenario) failing_setup config
           (errorString "malformed registry address") 2
           [Caller 0; Caller 0; Caller 0; Caller 1; Caller 1]).
  reflexivity.
Defined.

(** One caller polling fifty times after a failed setup is still in the
    wait loop, with the error recorded and nothing published. *)
Example failed_setup_first_call_spins :
  let w := run (ext := scenario) failing_setup config
               (replicate 50 (Caller 0)) (init 1) in
  callers w = [WaitLoop] /\ instance (shared w) = None /\
  initError (shared w)
  = Some (wrapError "error setting up gRPC client: malformed registry address"
                    (errorString "malformed registry address")).
Proof. vm_compute. by repeat split. Qed.

(** The registry lists nothing twice and then [orders]. *)
Lemma discovery_stops_at_first_success_witness :
  exists s',
    attemptGettingRegisteredServices (ext := scenario) 4 config LoopTop
      (shared (init 0)) = (Finished, s') /\
    instance s' = Some (mkClient (ext := scenario) None [orders]) /\
    lookups s' = lookups (shared (init (ext := scenario) 0)) + 2 + 1.
Proof.
  apply (discovery_stops_at_first_success (ext := scenario) config 2 [orders]
           (shared (init 0))).
  - intros k Hk. right. destruct k as [|[|k]]; [reflexivity | reflexivity | lia].
  - reflexivity.
  - discriminate.
  - simpl. lia.
Defined.

(** The process just before the goroutine publishes: the handle in place
    carries the transport. *)
Lemma discovery_replaces_handle_witness :
  let w := run (ext := scenario) setupClient config
               [Caller 0; Caller 0; Task 0; Task 0; Task 0] (init 1) in
  instance (shared w) = Some (mkClient (ext := scenario) (Some "consul:8500") []) /\
  let w' := step setupClient config (Task 0) w in
  instance (shared w') = Some (mkClient (ext := scenario) None [orders]) /\
  (forall h, instance (shared w') = Some h ->
             GetClient h = None /\ rs h = [orders]) /\
  tasks w' !! 0 = Some Finished.
Proof.
  split; [reflexivity |].
  apply (discovery_replaces_handle (ext := scenario) setupClient config).
  reflexivity.
Defined.

Lemma getRegisteredServices_fails_iff_witness :
  fst (getRegisteredServices (ext := scenario) config 2) = ([orders], None)
  /\ snd (fst (getRegisteredServices (ext := scenario) config 0)) <> None.
Proof.
  split.
  - apply (proj2 (getRegisteredServices_fails_iff (ext := scenario) config 2));
      [reflexivity | discriminate].
  - apply (proj1 (getRegisteredServices_fails_iff (ext := scenario) config 0)).
    right. reflexivity.
Defined.

Lemma discovery_never_ends_when_lookups_fail_witness :
  (forall fuel s, exists s',
      attemptGettingRegisteredServices (ext := unreachable) fuel config
        LoopTop s = (LoopTop, s') /\
      instance s' = instance s /\ lookups s' = lookups s + fuel) /\
  (forall N sched,
      let w := run (ext := unreachable) setupClient config sched (init N) in
      Forall (fun pc => pc = LoopTop) (tasks w) /\
      forall h, instance (shared w) = Some h -> rs h = []).
Proof.
  apply (discovery_never_ends_when_lookups_fail (ext := unreachable) config).
  intros k. left. discriminate.
Defined.

(** Caller 0 has left the wait loop and returns the handle in place. *)
Lemma newClient_waits_for_instance_witness :
  let w := run (ext := scenario) setupClient config
               [Caller 0; Caller 0; Caller 0] (init 2) in
  is_Some (instance (shared w)) /\
  callers (step setupClient config (Caller 0) w) !! 0
  = Some (Returned (Some (mkClient (ext := scenario) (Some "consul:8500") []), None)).
Proof.
  apply (proj1 (proj2 (newClient_waits_for_instance (ext := scenario)
                         setupClient config 2
                         [Caller 0; Caller 0; Caller 0] 0))).
  reflexivity.
Defined.

Lemma setup_sequence_runs_once_witness :
  let w := run (ext := scenario) setupClient config
               [Caller 1; Caller 0; Caller 2; Caller 1; Caller 0; Caller 2;
                Task 0; Caller 1; Caller 0; Caller 2; Caller 2] (init 3) in
  setupCalls (shared w) = 1 /\ length (tasks w) = 1 /\
  is_Some (instance (shared w)).
Proof.
  apply (proj1 (proj2 (proj2 (setup_sequence_runs_once (ext := scenario) config 3
           [Caller 1; Caller 0; Caller 2; Caller 1; Caller 0; Caller 2;
            Task 0; Caller 1; Caller 0; Caller 2; Caller 2])))).
  reflexivity.
Defined.

Lemma setupClient_never_fails_witness :
  let w := run (ext := scenario) setupClient config
               [Caller 0; Caller 0; Task 0] (init 1) in
  is_Some (instance (shared w)).
Proof.
  apply (proj2 (setupClient_never_fails (ext := scenario) config) 1
           [Caller 0; Caller 0; Task 0]).
  reflexivity.
Defined.

(** The scenario of the specification: two callers, the registry lists
    [orders] on the third lookup.  Caller 0 returns before the discovery
    and holds the transport without records; caller 1 returns after it and
    holds the records without transport. *)
Example scenario_run :
  let w := run (ext := scenario) setupClient config
               [Caller 0; Caller 0; Caller 1; Task 0; Task 0; Task 0;
                Caller 0; Caller 0; Task 0; Task 0; Caller 1; Caller 1]
               (init 2) in
  callers w
  = [Returned (Some (mkClient (ext := scenario) (Some "consul:8500") []), None);
     Returned (Some (mkClient (ext := scenario) None [orders]), None)] /\
  tasks w = [Finished] /\ lookups (shared w) = 3 /\
  setupCalls (shared w) = 1.
Proof. vm_compute. by repeat split. Qed.

Example scenario_server_name :
  GetServerName (ext := scenario) (mkClient (ext := scenario) None [orders]) = Returns "orders"
  /\ GetServerName (ext := scenario) (mkClient (ext := scenario) (Some "consul:8500") []) = Panics.
Proof. by split. Qed.

Import events inbound.

Example shop_unknown_route :
  HandleRequest (ext := shop) tt (mkRequest "/orders" "GET" ∅ "") []
  = Returns ((mkResponse 404 ∅ "Not Found", None), []).
Proof. reflexivity. Qed.

Example shop_get_customer :
  HandleRequest (ext := shop) tt
    (mkRequest "/customers/{id}" "GET" {[ "id" := "7" ]} "") [(7%Z, "Ada")]
  = Returns ((mkResponse 200 jsonHeaders "Ada", None), [(7%Z, "Ada")]).
Proof. vm_compute. reflexivity. Qed.

Example shop_bad_id :
  HandleRequest (ext := shop) tt
    (mkRequest "/customers/{id}" "DELETE" {[ "id" := "x" ]} "") [(7%Z, "Ada")]
  = Returns ((mkResponse 500 ∅ "invalid customer ID format: invalid syntax",
              None), [(7%Z, "Ada")]).
Proof. vm_compute. reflexivity. Qed.

End Runs.

(** * Further properties of client.go *)

Module ClientMore.
Import Go pkggomicro ClientVocab ClientProps.

Section LookupMore.
Context {ext : Externals}.

Lemma print_service_length (service : registry.Service) :
  length (print_service service) = 1 + 3 * length (registry.Nodes service).
Proof.
  unfold print_service. simpl. f_equal.
  induction (registry.Nodes service) as [|node nodes IH]; [done |].
  simpl. rewrite IH. lia.
Qed.

Lemma print_services_length (services : list registry.Service) :
  length (concat (map print_service services)) = printed_lines services.
Proof.
  unfold printed_lines.
  induction services as [|s services IH]; [done |].
  cbn [map concat]. rewrite length_app, print_service_length, IH. done.
Qed.

(** A failed lookup step returns the nil slice, prints nothing, and its
    error wraps exactly the error of the registry (none when the registry
    listed no record); a successful one returns a non-empty slice. *)
Theorem getRegisteredServices_result_shape (config : defs.Config) (k : nat) :
  let resp := GetService (consul_NewRegistry (defs.GetConsulAddress config))
                         (defs.GetServerName config) k in
  match getRegisteredServices config k with
  | ((services, Some e), out) =>
      services = [] /\ out = [] /\ Unwrap e = snd resp
  | ((services, None), out) =>
      services <> [] /\ services = fst resp /\ snd resp = None
  end.
Proof.
  unfold getRegisteredServices.
  destruct (GetService _ _ k) as [services [e|]]; simpl; [done |].
  case_decide as Hlen; [done |].
  repeat split. by intros ->.
Qed.

(** A successful lookup step prints one line per record and three lines
    per node of each record. *)
Theorem getRegisteredServices_prints (config : defs.Config) (k : nat) :
  snd (fst (getRegisteredServices config k)) = None ->
  length (snd (getRegisteredServices config k))
  = printed_lines (fst (fst (getRegisteredServices config k))).
Proof.
  unfold getRegisteredServices.
  destruct (GetService _ _ k) as [services [e|]]; simpl; [done |].
  case_decide as Hlen; [done |]. intros _. apply print_services_length.
Qed.

Lemma getRegisteredServices_nonempty (config : defs.Config) (k : nat) :
  snd (fst (getRegisteredServices config k)) = None ->
  fst (fst (getRegisteredServices config k)) <> [].
Proof.
  unfold getRegisteredServices.
  destruct (GetService _ _ k) as [services [e|]]; simpl; [done |].
  case_decide as Hlen; simpl; [done |]. by intros _ ->.
Qed.

(** One iteration of the goroutine: back at the top, or on to publishing
    a non-empty list; [instance] is left alone and one lookup is made. *)
Lemma task_step_LoopTop_cases (config : defs.Config) (s : Shared) :
  exists pc' s',
    task_step config LoopTop s = (pc', s') /\
    instance s' = instance s /\ lookups s' = S (lookups s) /\
    (pc' = LoopTop \/ exists regSrv, pc' = Publishing regSrv /\ regSrv <> []).
Proof.
  pose proof (getRegisteredServices_nonempty config (lookups s)) as Hne.
  unfold task_step. simpl lookups.
  destruct (getRegisteredServices config (lookups s)) as [[regSrv [e|]] out];
    simpl in Hne.
  - eexists _, _. split; [done |]. repeat split. by left.
  - eexists _, _. split; [done |]. repeat split. right. eauto.
Qed.

End LookupMore.

Section ProcessMore.
Context {ext : Externals}.
Variable setup : defs.Config -> option gmClient * option error.
Variable config : defs.Config.

Local Abbreviation step := (pkggomicro.step setup config).
Local Abbreviation run := (pkggomicro.run setup config).

(** What a step of a caller does to the store, by control point. *)
Lemma newClient_step_quiet (pc : CallerPc) (s : Shared) :
  lookups (newClient_step setup config pc s).1.2 = lookups s /\
  stdout (newClient_step setup config pc s).1.2 = stdout s.
Proof.
  destruct pc as [| | | |r]; unfold newClient_step.
  - by destruct (once s).
  - unfold once_closure. by destruct (setup config) as [clt [e|]].
  - by destruct (instance s).
  - done.
  - done.
Qed.

Lemma instance_step (t : tid) (w : World) :
  is_Some (instance (shared w)) -> is_Some (instance (shared (step t w))).
Proof.
  intros Hsome. destruct t as [i|j]; unfold pkggomicro.step.
  - destruct (callers w !! i) as [pc|]; [| done].
    destruct (newClient_step_effect setup config pc (shared w)) as [_ Hinst].
    destruct (newClient_step setup config pc (shared w)) as [[pc' s'] spawned].
    simpl in *. destruct Hinst as [-> | [clt ->]]; [done | by eexists].
  - destruct (tasks w !! j) as [pc|]; [| done].
    destruct (task_step_frame config pc (shared w)) as [_ Hmono].
    destruct (task_step config pc (shared w)) as [pc' s']. simpl in *. auto.
Qed.

(** Once [instance] is non-nil it stays non-nil, whatever runs next. *)
Theorem instance_stays_non_nil (sched : list tid) (w : World) :
  is_Some (instance (shared w)) ->
  is_Some (instance (shared (run sched w))).
Proof.
  revert w. induction sched as [|t sched IH]; intros w Hsome; [done |].
  rewrite run_cons. by apply IH, instance_step.
Qed.

(** Steps of callers alone make no registry lookup and print nothing. *)
Theorem callers_never_query_registry (sched : list tid) (w : World) :
  Forall is_caller sched ->
  lookups (shared (run sched w)) = lookups (shared w) /\
  stdout (shared (run sched w)) = stdout (shared w).
Proof.
  revert w. induction sched as [|t sched IH]; intros w Hall; [done |].
  apply Forall_cons in Hall as [Ht Hall]. rewrite run_cons.
  destruct (IH (step t w) Hall) as [-> ->].
  destruct t as [i|j]; [| done]. unfold pkggomicro.step.
  destruct (callers w !! i) as [pc|]; [| done].
  pose proof (newClient_step_quiet pc (shared w)) as Hq.
  by destruct (newClient_step setup config pc (shared w)) as [[pc' s'] spawned].
Qed.

(** *** The shape of handles *)

Lemma newClient_step_shape (pc : CallerPc) (s : Shared) :
  (forall h, instance s = Some h -> handle_shape (setup config).1 h) ->
  (forall h e, pc = Returned (Some h, e) -> handle_shape (setup config).1 h) ->
  (forall h, instance (newClient_step setup config pc s).1.2 = Some h ->
             handle_shape (setup config).1 h) /\
  (forall h e, (newClient_step setup config pc s).1.1 = Returned (Some h, e) ->
               handle_shape (setup config).1 h) /\
  Forall (fun pc => forall regSrv, pc = Publishing regSrv -> regSrv <> [])
         (newClient_step setup config pc s).2.
Proof.
  intros Hinst Hpc. destruct pc as [| | | |r]; unfold newClient_step.
  - destruct (once s); simpl;
      (split; [done | split; [by intros ? ? [=] | by constructor]]).
  - unfold once_closure. destruct (setup config) as [clt [e|]]; simpl in *.
    + split; [done | split; [by intros ? ? [=] | by constructor]].
    + split; [| split; [by intros ? ? [=] | by repeat constructor]].
      intros h [= <-]. by left.
  - destruct (instance s) eqn:Hh; simpl;
      (split; [by rewrite Hh | split; [by intros ? ? [=] | by constructor]]).
  - simpl. split; [done |]. split; [| by constructor].
    intros h e [= Hh _]. by apply Hinst.
  - simpl. split; [done | split; [done | by constructor]].
Qed.

Lemma task_step_shape (clt : option gmClient) (pc : TaskPc) (s : Shared) :
  (forall h, instance s = Some h -> handle_shape clt h) ->
  (forall regSrv, pc = Publishing regSrv -> regSrv <> []) ->
  (forall h, instance (task_step config pc s).2 = Some h -> handle_shape clt h) /\
  (forall regSrv, (task_step config pc s).1 = Publishing regSrv -> regSrv <> []).
Proof.
  intros Hinst Hpc. destruct pc as [|regSrv|].
  - destruct (task_step_LoopTop_cases config s)
      as (pc' & s' & -> & Hi & _ & Hcases). simpl. rewrite Hi.
    split; [done |]. intros regSrv ->.
    destruct Hcases as [? | (r & [= <-] & ?)]; done.
  - simpl. split; [| done]. intros h [= <-]. right. split; [done |].
    by apply Hpc.
  - by split.
Qed.

Lemma shape_inv_step (t : tid) (w : World) :
  shape_inv (setup config).1 w -> shape_inv (setup config).1 (step t w).
Proof.
  intros (Hinst & Htasks & Hcallers). destruct t as [i|j]; unfold pkggomicro.step.
  - destruct (callers w !! i) as [pc|] eqn:Hpc; [| done].
    destruct (newClient_step_shape pc (shared w) Hinst) as (Hi & Hr & Hsp).
    { rewrite Forall_lookup in Hcallers. by apply (Hcallers i). }
    destruct (newClient_step setup config pc (shared w)) as [[pc' s'] spawned].
    simpl in Hi, Hr, Hsp. split; [done |]. split; simpl.
    + by apply Forall_app.
    + by apply Forall_insert.
  - destruct (tasks w !! j) as [pc|] eqn:Hpc; [| done].
    destruct (task_step_shape (setup config).1 pc (shared w) Hinst) as (Hi & Hp).
    { rewrite Forall_lookup in Htasks. by apply (Htasks j). }
    destruct (task_step config pc (shared w)) as [pc' s'].
    simpl in Hi, Hp. split; [done |]. split; simpl; [| done].
    by apply Forall_insert.
Qed.

Lemma shape_inv_run (sched : list tid) (w : World) :
  shape_inv (setup config).1 w -> shape_inv (setup config).1 (run sched w).
Proof.
  revert w. induction sched as [|t sched IH]; intros w Hw; [done |].
  rewrite run_cons. by apply IH, shape_inv_step.
Qed.

Lemma shape_inv_init (N : nat) : shape_inv (setup config).1 (init N).
Proof.
  split; [done |]. split; [by constructor |].
  apply Forall_replicate. by intros h e.
Qed.

(** *** The discovery in the process *)

Lemma newClient_step_idle (pc : CallerPc) (s : Shared) :
  pc <> InClosure ->
  (newClient_step setup config pc s).2 = [] /\
  instance (newClient_step setup config pc s).1.2 = instance s.
Proof.
  intros Hne. destruct pc as [| | | |r]; unfold newClient_step; try done.
  - by destruct (once s).
  - by destruct (instance s) eqn:Hh.
Qed.

Lemma discovery_inv_ext (M : nat) (l : list registry.Service) (w w' : World) :
  tasks w' = tasks w -> lookups (shared w') = lookups (shared w) ->
  instance (shared w') = instance (shared w) ->
  discovery_inv M l w -> discovery_inv M l w'.
Proof. unfold discovery_inv. by intros -> -> ->. Qed.

Section FirstSuccess.
Variable M : nat.
Variable l : list registry.Service.
Hypothesis Hfail : forall k, k < M -> lookup_fails config k.
Hypothesis Hresp :
  GetService (consul_NewRegistry (defs.GetConsulAddress config))
             (defs.GetServerName config) M = (l, None).
Hypothesis Hne : l <> [].

Lemma discovery_inv_step (t : tid) (w : World) :
  guard_inv setup config w ->
  discovery_inv M l w -> discovery_inv M l (step t w).
Proof.
  intros Hg Hd. destruct t as [i|j]; unfold pkggomicro.step.
  - destruct (callers w !! i) as [pc|] eqn:Hpc; [| done].
    assert (pc = InClosure \/ pc <> InClosure) as [-> | Hnc]
      by (destruct pc; [right | left | right | right | right]; done).
    + pose proof (guard_inv_caller setup config w i _ Hg Hpc) as Hon.
      simpl in Hon. unfold guard_inv in Hg. rewrite Hon in Hg.
      destruct Hg as (_ & _ & _ & Ht & _).
      unfold discovery_inv in Hd |- *. rewrite Ht in Hd.
      unfold newClient_step, once_closure.
      destruct (setup config) as [clt [e|]]; simpl; rewrite Ht; simpl; lia.
    + destruct (newClient_step_idle pc (shared w) Hnc) as [Hsp Hi].
      destruct (newClient_step_quiet pc (shared w)) as [Hl _].
      destruct (newClient_step setup config pc (shared w))
        as [[pc' s'] spawned].
      simpl in Hsp, Hi, Hl. subst spawned.
      apply (discovery_inv_ext M l w); simpl; [by rewrite app_nil_r | done..].
  - destruct (tasks w !! j) as [pc|] eqn:Hpc; [| done].
    unfold discovery_inv in Hd |- *.
    destruct (tasks w) as [|pc0 [|pc1 rest]] eqn:Ht; [done | | by destruct pc0].
    destruct j as [|j]; [| done]. injection Hpc as ->.
    destruct pc as [|regSrv|].
    + destruct (decide (lookups (shared w) = M)) as [HM | HM].
      * rewrite <- HM in Hresp.
        destruct (task_step_success config (shared w) l Hresp Hne)
          as (s' & -> & _ & Hl & _).
        simpl. split; [done | lia].
      * destruct (task_step_failure config (shared w)) as (s' & -> & _ & Hl & _);
          [apply Hfail; lia |].
        simpl. lia.
    + destruct Hd as [-> Hl]. simpl. done.
    + done.
Qed.

Lemma discovery_inv_run (sched : list tid) (w : World) :
  guard_inv setup config w -> discovery_inv M l w ->
  discovery_inv M l (run sched w).
Proof.
  revert w. induction sched as [|t sched IH]; intros w Hg Hd; [done |].
  rewrite run_cons. apply IH.
  - destruct t; [by apply guard_inv_caller_step | by apply guard_inv_task_step].
  - by apply discovery_inv_step.
Qed.

End FirstSuccess.

(** When the first lookup to succeed is the one numbered [M], listing the
    non-empty [l], then under every schedule of the process at most
    [M + 1] lookups are made and at most one goroutine exists, and once the
    goroutine has finished [instance] is the handle made of [l] alone;
    nothing that runs afterwards replaces it. *)
Theorem process_discovery_stops (M : nat) (l : list registry.Service)
    (N : nat) (sched : list tid) :
  (forall k, k < M -> lookup_fails config k) ->
  GetService (consul_NewRegistry (defs.GetConsulAddress config))
             (defs.GetServerName config) M = (l, None) ->
  l <> [] ->
  let w := run sched (init N) in
  lookups (shared w) <= M + 1 /\ length (tasks w) <= 1 /\
  (forall j, tasks w !! j = Some Finished ->
             lookups (shared w) = M + 1 /\
             instance (shared w) = Some (mkClient None l)).
Proof.
  intros Hfail Hresp Hne w.
  assert (Hd : discovery_inv M l w).
  { apply (discovery_inv_run M l Hfail Hresp Hne sched (init N));
      [apply guard_inv_init | done]. }
  unfold discovery_inv in Hd.
  destruct (tasks w) as [|pc [|pc1 rest]]; [| | by destruct pc].
  - rewrite Hd. split; [lia |]. split; [simpl; lia | done].
  - destruct pc as [|regSrv|].
    + split; [lia |]. split; [done |]. by intros [|j].
    + destruct Hd as [_ ->]. split; [lia |]. split; [done |]. by intros [|j].
    + destruct Hd as [-> ->]. split; [lia |]. split; [done |].
      intros j _. split; [lia | done].
Qed.

(** *** Progress of a call once the guard is done *)

Lemma caller_step_done (w : World) (i : nat) (pc : CallerPc) :
  callers w !! i = Some pc -> pc <> InClosure ->
  once (shared w) = OnceDone -> is_Some (instance (shared w)) ->
  shared (step (Caller i) w) = shared w /\
  callers (step (Caller i) w) !! i = Some (next_pc (shared w) pc).
Proof.
  intros Hpc Hnc Hon [h Hh]. unfold pkggomicro.step. rewrite Hpc.
  pose proof (lookup_lt_Some _ _ _ Hpc) as Hlt.
  destruct pc as [| | | |r]; unfold newClient_step; try done;
    rewrite ?Hon, ?Hh; simpl; rewrite ?Hh; by rewrite list_lookup_insert_eq.
Qed.

End ProcessMore.

Section ProgramMore.
Context {ext : Externals}.
Variable config : defs.Config.

Local Abbreviation run := (pkggomicro.run setupClient config).
Local Abbreviation transport :=
  (grpc_NewClient (consul_NewRegistry (defs.GetConsulAddress config))).

(** A handle returned by newClient is one of two kinds: it carries the
    transport and no record, and then GetServerName panics on it; or it
    carries records and no transport, and then GetClient returns nil and
    GetServerName the name of the first record. *)
Theorem returned_handle_shape (N : nat) (sched : list tid) (i : nat)
    (h : client) (e : option error) :
  callers (run sched (init N)) !! i = Some (Returned (Some h, e)) ->
  (GetClient h = Some transport /\ GetServerName h = Panics) \/
  (GetClient h = None /\
   exists s, head (rs h) = Some s /\ GetServerName h = Returns (registry.Name s)).
Proof.
  intros Hpc.
  destruct (shape_inv_run setupClient config sched (init N)
              (shape_inv_init setupClient config N)) as (_ & _ & Hall).
  rewrite Forall_lookup in Hall.
  destruct (Hall i _ Hpc h e eq_refl) as [[Hc Hrs] | [Hc Hrs]].
  - left. unfold GetClient, GetServerName. by rewrite Hc, Hrs.
  - right. unfold GetClient, GetServerName. split; [done |].
    destruct (rs h) as [|s rest]; [done |]. by exists s.
Qed.

(** The first call, running alone, returns after four steps without any
    lookup having been made: its handle carries the transport and no
    record, so GetServerName panics on it; the goroutine it started has
    not run yet. *)
Theorem first_call_returns_before_discovery (N : nat) :
  0 < N ->
  let w := run (replicate 4 (Caller 0)) (init N) in
  callers w !! 0
  = Some (Returned (Some (mkClient (Some transport) []), None)) /\
  GetServerName (mkClient (Some transport) []) = Panics /\
  lookups (shared w) = 0 /\ stdout (shared w) = [] /\ tasks w = [LoopTop].
Proof.
  intros HN. destruct N as [|N]; [lia |]. by repeat split.
Qed.

(** In the program, once the guard is done a call never waits: whatever
    point it is at, three steps of its own take it to the return, with a
    non-nil handle and a nil error. *)
Theorem initialised_call_returns (N : nat) (sched : list tid) (i : nat)
    (pc : CallerPc) :
  let w := run sched (init N) in
  once (shared w) = OnceDone -> callers w !! i = Some pc ->
  exists r, callers (run (replicate 3 (Caller i)) w) !! i = Some (Returned r) /\
            snd r = None /\ is_Some (fst r).
Proof.
  intros w Hon Hpc.
  pose proof (guard_inv_run setupClient config sched (init N)
                (guard_inv_init setupClient config N)) as Hinv.
  fold w in Hinv.
  pose proof (guard_inv_caller setupClient config w i pc Hinv Hpc) as Hat.
  assert (Hsome : is_Some (instance (shared w))).
  { unfold guard_inv in Hinv. rewrite Hon in Hinv. simpl in Hinv.
    by destruct Hinv as (_ & _ & ? & _). }
  assert (Hnc : pc <> InClosure) by (intros ->; congruence).
  change (run (replicate 3 (Caller i)) w)
    with (step setupClient config (Caller i)
            (step setupClient config (Caller i)
               (step setupClient config (Caller i) w))).
  destruct (caller_step_done setupClient config w i pc Hpc Hnc Hon Hsome)
    as [Hs1 Hpc1].
  set (w1 := step setupClient config (Caller i) w) in *.
  assert (Hnc1 : next_pc (shared w) pc <> InClosure) by by destruct pc.
  destruct (caller_step_done setupClient config w1 i _ Hpc1 Hnc1)
    as [Hs2 Hpc2]; [by rewrite Hs1 | by rewrite Hs1 |].
  set (w2 := step setupClient config (Caller i) w1) in *.
  assert (Hnc2 : next_pc (shared w1) (next_pc (shared w) pc) <> InClosure)
    by by destruct pc.
  destruct (caller_step_done setupClient config w2 i _ Hpc2 Hnc2)
    as [_ Hpc3]; [by rewrite Hs2, Hs1 | by rewrite Hs2, Hs1 |].
  rewrite Hpc3, Hs2, Hs1.
  destruct pc as [| | | |r]; simpl; try done; eauto.
  destruct Hat as (_ & _ & _ & ? & ?). eauto.
Qed.

End ProgramMore.
End ClientMore.

(** Closes goals that relate the two results of a Go function. *)
Ltac results :=
  repeat match goal with
         | |- _ /\ _ => split
         | |- _ <-> _ => split
         | |- forall _, _ => intro
         | H : is_Some None |- _ => destruct H as [? ?]; discriminate
         | H : _ /\ _ |- _ => destruct H
         | H : Some _ = Some _ |- _ => injection H as <-
         | |- is_Some (Some _) => eexists; reflexivity
         end;
  try done; try congruence.

(** * Properties of the client configuration *)

Module ConfigProps.
Import Go pkgcgrpcclient.

Section Config.
Context {ext : Externals}.

(** Validate looks at the port alone: it accepts a configuration exactly
    when the port is not 0 (a negative port, an empty host or a nil TLS
    configuration are accepted), and setting the host or the TLS
    configuration never changes its verdict. *)
Theorem Validate_checks_port_only (c : config) (host' : string)
    (tlsConfig' : option TLSConfig) (port' : Z) :
  (Validate c = None <-> GetPort c <> 0%Z) /\
  Validate (SetHost host' c) = Validate c /\
  Validate (SetTLSConfig tlsConfig' c) = Validate c /\
  (Validate (SetPort port' c) = None <-> port' <> 0%Z) /\
  (Validate (newConfig host' port' tlsConfig') = None <-> port' <> 0%Z).
Proof.
  unfold Validate, GetPort, SetHost, SetTLSConfig, SetPort, newConfig. simpl.
  repeat split; try done; repeat case_decide; try done; by intros _.
Qed.

(** The setters touch one field each: setters of different fields
    commute, the last write of a field wins, and rebuilding a
    configuration from its three getters gives it back. *)
Theorem setters_compose (c : config) (h h' : string) (p p' : Z)
    (t : option TLSConfig) :
  SetHost h (SetPort p c) = SetPort p (SetHost h c) /\
  SetHost h (SetTLSConfig t c) = SetTLSConfig t (SetHost h c) /\
  SetPort p (SetTLSConfig t c) = SetTLSConfig t (SetPort p c) /\
  SetHost h (SetHost h' c) = SetHost h c /\
  SetPort p (SetPort p' c) = SetPort p c /\
  newConfig (GetHost c) (GetPort c) (GetTLSConfig c) = c /\
  SetTLSConfig t (SetPort p (SetHost h c)) = newConfig h p t.
Proof. by destruct c. Qed.

(** loadTLSConfig on a non-nil argument returns either a configuration
    and a nil error or nil and an error, never both or neither; it
    succeeds exactly when the key pair loads, the CA file is read and at
    least one certificate is appended, and the configuration then holds
    that one certificate and the pool the CA was appended to. *)
Theorem loadTLSConfig_succeeds_iff (t : TLSConfig) :
  let pair := tls_LoadX509KeyPair (CertFile t) (KeyFile t) in
  let ca := os_ReadFile (CAFile t) in
  let pool := AppendCertsFromPEM x509_NewCertPool (fst ca) in
  exists cfg err,
    loadTLSConfig (Some t) = Returns (cfg, err) /\
    (is_Some cfg <-> err = None) /\
    (err = None <-> snd pair = None /\ snd ca = None /\ snd pool = true) /\
    (forall cf, cfg = Some cf ->
                Certificates cf = [fst pair] /\ RootCAs cf = fst pool).
Proof.
  unfold loadTLSConfig. simpl.
  destruct (tls_LoadX509KeyPair _ _) as [certificate [e|]]; simpl;
    [eexists _, _; split; [done |]; results |].
  destruct (os_ReadFile _) as [ca [e|]]; simpl;
    [eexists _, _; split; [done |]; results |].
  destruct (AppendCertsFromPEM _ ca) as [pool [|]]; simpl;
    eexists _, _; (split; [done |]); results.
Qed.

(** The error loadTLSConfig returns is the one of the first step that
    fails, unwrapped: the error of the key pair whatever the CA file is,
    else the error of reading the CA file; and a nil argument panics. *)
Theorem loadTLSConfig_first_error (t : TLSConfig) (e : error) :
  (snd (tls_LoadX509KeyPair (CertFile t) (KeyFile t)) = Some e ->
   loadTLSConfig (Some t) = Returns (None, Some e)) /\
  (snd (tls_LoadX509KeyPair (CertFile t) (KeyFile t)) = None ->
   snd (os_ReadFile (CAFile t)) = Some e ->
   loadTLSConfig (Some t) = Returns (None, Some e)) /\
  loadTLSConfig None = Panics.
Proof.
  unfold loadTLSConfig. simpl.
  destruct (tls_LoadX509KeyPair _ _) as [certificate [e1|]]; simpl.
  - split; [by intros [= ->] | by split].
  - split; [done |]. split; [| done]. intros _.
    destruct (os_ReadFile _) as [ca [e2|]]; simpl; [by intros [= ->] | done].
Qed.

End Config.
End ConfigProps.

(** * Properties of NewLambdaHandler *)

Module NewHandlerProps.
Import Go lambdahandler.

Section New.
Context {ext : Externals}.

(** NewLambdaHandler returns a handler and a nil error, or nil and an
    error; it succeeds exactly when the bootstrap reports no error and the
    stack hands out a non-nil Lambda client, and the handler then holds
    the use cases it was given and that client; a bootstrap error is
    wrapped, not replaced. *)
Theorem NewLambdaHandler_result (u : UseCases) :
  let r := NewLambdaHandler u in
  (is_Some (fst r) <-> snd r = None) /\
  (snd r = None <->
   snd pkgaws_Bootstrap = None /\
   is_Some (NewLambdaClient (fst pkgaws_Bootstrap))) /\
  (forall h, fst r = Some h ->
             useCases h = u /\
             NewLambdaClient (fst pkgaws_Bootstrap) = Some (lambdaClient h)) /\
  (forall e, snd pkgaws_Bootstrap = Some e ->
             exists e', snd r = Some e' /\ Unwrap e' = Some e).
Proof.
  unfold NewLambdaHandler.
  destruct pkgaws_Bootstrap as [stack [e|]]; simpl.
  { split_and!; [results .. |]. intros e0 [= <-]. eauto. }
  destruct (NewLambdaClient stack) as [lc|]; simpl; split_and!; results.
Qed.

End New.
End NewHandlerProps.

(** * Further properties of lambda-handler.go *)

Module HandlerMore.
Import events inbound HandlerVocab.

(** ** [strings.Contains] finds substrings *)

Lemma append_nil (b : string) : "" +:+ b = b.
Proof. done. Qed.

Lemma append_cons (x : Ascii.ascii) (a b : string) :
  String x a +:+ b = String x (a +:+ b).
Proof. done. Qed.

Lemma append_assoc (a b c : string) : (a +:+ b) +:+ c = a +:+ (b +:+ c).
Proof.
  induction a as [|x a IH]; [done |]. rewrite !append_cons. by f_equal.
Qed.

Lemma prefix_iff (a s : string) :
  String.prefix a s = true <-> exists post, s = a +:+ post.
Proof.
  revert s. induction a as [|x a IH]; intros s.
  - split; [intros _; by exists s | intros _; by destruct s].
  - destruct s as [|y s]; simpl.
    { split; [done |]. intros [post Hpost]. by rewrite append_cons in Hpost. }
    destruct (Ascii.ascii_dec x y) as [<- | Hne].
    + rewrite IH. split; intros [post Hpost]; exists post.
      * rewrite append_cons. by f_equal.
      * rewrite append_cons in Hpost. by injection Hpost.
    + split; [done |]. intros [post Hpost].
      rewrite append_cons in Hpost. by injection Hpost as <-.
Qed.

Lemma Contains_here (s substr : string) :
  String.prefix substr s = true -> strings.Contains s substr = true.
Proof. intros Hp. destruct s; cbn [strings.Contains]; by rewrite Hp. Qed.

Lemma Contains_iff (s substr : string) :
  strings.Contains s substr = true
  <-> exists pre post, s = pre +:+ substr +:+ post.
Proof.
  split.
  - induction s as [|x s IH]; cbn [strings.Contains].
    + destruct (String.prefix substr "") eqn:Hp; [| done]. intros _.
      apply prefix_iff in Hp as [post Hpost]. by exists "", post.
    + destruct (String.prefix substr (String x s)) eqn:Hp.
      * intros _. apply prefix_iff in Hp as [post Hpost]. by exists "", post.
      * intros (pre & post & ->)%IH. exists (String x pre), post.
        by rewrite append_cons.
  - intros (pre & post & ->). induction pre as [|y pre IH].
    + rewrite append_nil. apply Contains_here, prefix_iff. eauto.
    + rewrite append_cons. cbn [strings.Contains]. rewrite IH.
      by destruct (String.prefix _ _).
Qed.

Lemma Contains_suffix (s a b : string) :
  strings.Contains s (a +:+ b) = true -> strings.Contains s b = true.
Proof.
  rewrite !Contains_iff. intros (pre & post & ->).
  exists (pre +:+ a), post. by rewrite !append_assoc.
Qed.

(** The message of CreateCustomer for an undecodable body is the
    fallback "request cannot be nil" exactly when the decoder's text
    contains neither "failed on the 'required' tag" nor "cannot
    unmarshal"; and it is "missing required field" exactly when the text
    contains the first phrase not preceded by "Email' " or "Age' ". *)
Theorem createMessage_cases (errStr : string) :
  (createMessage errStr = "request cannot be nil" <->
   strings.Contains errStr "failed on the 'required' tag" = false /\
   strings.Contains errStr "cannot unmarshal" = false) /\
  (createMessage errStr = "missing required field" <->
   strings.Contains errStr "failed on the 'required' tag" = true /\
   strings.Contains errStr "Email' failed on the 'required' tag" = false /\
   strings.Contains errStr "Age' failed on the 'required' tag" = false).
Proof.
  assert (Hemail :
    strings.Contains errStr "Email' failed on the 'required' tag" = true ->
    strings.Contains errStr "failed on the 'required' tag" = true)
    by apply (Contains_suffix errStr "Email' " "failed on the 'required' tag").
  assert (Hage :
    strings.Contains errStr "Age' failed on the 'required' tag" = true ->
    strings.Contains errStr "failed on the 'required' tag" = true)
    by apply (Contains_suffix errStr "Age' " "failed on the 'required' tag").
  unfold createMessage.
  destruct (strings.Contains errStr "Email' failed on the 'required' tag");
    destruct (strings.Contains errStr "Age' failed on the 'required' tag");
    destruct (strings.Contains errStr "failed on the 'required' tag");
    destruct (strings.Contains errStr "cannot unmarshal");
    try specialize (Hemail eq_refl); try specialize (Hage eq_refl);
    results.
Qed.

Section Handlers.
Context {ext : Externals}.

Lemma route_miss (m r m0 r0 : string) :
  (m, r) <> (m0, r0) -> String.eqb m m0 && String.eqb r r0 = false.
Proof.
  intros Hne. destruct (String.eqb_spec m m0) as [-> |]; [| done].
  destruct (String.eqb_spec r r0) as [-> |]; done.
Qed.

(** A request whose method and resource are not one of the six routes
    (the comparison is exact, so "get" or a trailing slash miss) gets
    404 "Not Found" with a nil error; no use case runs and the store is
    as it was. *)
Theorem unknown_route_not_found
    (ctx : Ctx) (request : APIGatewayProxyRequest) (st : Store) :
  (HTTPMethod request, Resource request) ∉ routes ->
  HandleRequest ctx request st
  = Go.Returns ((mkResponse http.StatusNotFound ∅ "Not Found", None), st).
Proof.
  intros Hnot. unfold HandleRequest.
  rewrite !route_miss; [done | ..];
    intros Heq; apply Hnot; rewrite Heq; unfold routes;
    rewrite !elem_of_cons; tauto.
Qed.

(** ** Requests rejected before a use case runs *)

Lemma rejected_ret (e : error) (st : Store) :
  rejected st (ret (apiErrorResponse e) st).
Proof. by exists e. Qed.

(** A path id that does not parse, or that ValidateID refuses, stops
    GetCustomer, UpdateCustomer and DeleteCustomer before any use case
    runs: each returns an error response with a nil error and the store is
    as it was. *)
Theorem bad_path_id_is_rejected
    (ctx : Ctx) (request : APIGatewayProxyRequest) (st : Store) :
  bad_path_id request ->
  rejected st (GetCustomer ctx request st) /\
  rejected st (UpdateCustomer ctx request st) /\
  rejected st (DeleteCustomer ctx request st).
Proof.
  unfold bad_path_id, GetCustomer, UpdateCustomer, DeleteCustomer.
  destruct (pathID request) as [ID [e|]]; simpl.
  - intros _. repeat split; apply rejected_ret.
  - intros [? | Hbad]; [done |].
    destruct (utils_ValidateID ID) as [e|]; [| done].
    repeat split; apply rejected_ret.
Qed.

(** A body that does not decode, or that validateRequest refuses, stops
    CreateCustomer and UpdateCustomer before any use case runs, and the
    store is as it was. *)
Theorem bad_body_is_rejected
    (ctx : Ctx) (request : APIGatewayProxyRequest) (st : Store) :
  bad_body request ->
  rejected st (CreateCustomer ctx request st) /\
  rejected st (UpdateCustomer ctx request st).
Proof.
  unfold bad_body, CreateCustomer, UpdateCustomer.
  destruct (json_Unmarshal _ _) as [req [e|]]; simpl.
  - intros _. split; [apply rejected_ret |].
    destruct (pathID request) as [ID [e1|]]; [apply rejected_ret |].
    destruct (utils_ValidateID ID) as [e2|]; apply rejected_ret.
  - intros [? | Hbad]; [done |].
    destruct (validateRequest req) as [e|]; [| done].
    split; [apply rejected_ret |].
    destruct (pathID request) as [ID [e1|]]; [apply rejected_ret |].
    destruct (utils_ValidateID ID) as [e2|]; apply rejected_ret.
Qed.

(** ** The shape of responses *)

Lemma shaped_apiError (e : error) (st : Store) :
  returns_shaped (ret (apiErrorResponse e) st).
Proof.
  unfold ret, returns_shaped, apiErrorResponse.
  destruct (types_NewAPIError e). by left.
Qed.

Lemma shaped_ok (status : Z) (body : string) (st : Store) :
  status = http.StatusOK \/ status = http.StatusCreated \/
  status = http.StatusNoContent ->
  returns_shaped (ret (mkResponse status jsonHeaders body, None) st).
Proof. intros Hs. by right. Qed.

Local Ltac shaped :=
  repeat first
    [ apply shaped_apiError
    | apply shaped_ok; auto
    | match goal with
      | |- returns_shaped (match ?x with _ => _ end) => destruct x
      | |- returns_shaped (match ?x with _ => _ end _) => destruct x
      | |- returns_shaped ((let '(_, _) := ?x in _) _) => destruct x
      | |- returns_shaped (mbind (call ?f) _ ?st) =>
          unfold mbind at 1; unfold call at 1; destruct (f st) as [? ?]
      | |- returns_shaped (mbind (eval ?o) _ ?st) =>
          unfold mbind at 1; unfold eval at 1; destruct o
      end
    | done ].

Lemma GetCustomers_shaped (ctx : Ctx) (st : Store) :
  returns_shaped (GetCustomers ctx st).
Proof. unfold GetCustomers. shaped. Qed.

Lemma GetCustomer_shaped (ctx : Ctx) (request : APIGatewayProxyRequest)
    (st : Store) :
  returns_shaped (GetCustomer ctx request st).
Proof. unfold GetCustomer, Go.deref. shaped. Qed.

Lemma CreateCustomer_shaped (ctx : Ctx) (request : APIGatewayProxyRequest)
    (st : Store) :
  returns_shaped (CreateCustomer ctx request st).
Proof. unfold CreateCustomer. shaped. Qed.

Lemma UpdateCustomer_shaped (ctx : Ctx) (request : APIGatewayProxyRequest)
    (st : Store) :
  returns_shaped (UpdateCustomer ctx request st).
Proof. unfold UpdateCustomer. shaped. Qed.

Lemma DeleteCustomer_shaped (ctx : Ctx) (request : APIGatewayProxyRequest)
    (st : Store) :
  returns_shaped (DeleteCustomer ctx request st).
Proof. unfold DeleteCustomer. shaped. Qed.

Lemma GetKPI_shaped (ctx : Ctx) (st : Store) :
  returns_shaped (GetKPI ctx st).
Proof. unfold GetKPI. shaped. Qed.

(** Every response of HandleRequest either has no header at all (the
    error responses and the 404) or has exactly the JSON content type and
    one of the status codes 200, 201 and 204. *)
Theorem responses_have_shape
    (ctx : Ctx) (request : APIGatewayProxyRequest) (st st' : Store)
    (resp : APIGatewayProxyResponse) (err : option error) :
  HandleRequest ctx request st = Go.Returns ((resp, err), st') ->
  response_shape resp.
Proof.
  intros Hrun.
  assert (Hshaped : returns_shaped (HandleRequest ctx request st)).
  { unfold HandleRequest.
    repeat match goal with
           | |- returns_shaped ((if ?b then _ else _) _) => destruct b
           end;
      auto using GetCustomers_shaped, GetCustomer_shaped,
        CreateCustomer_shaped, UpdateCustomer_shaped, DeleteCustomer_shaped,
        GetKPI_shaped.
    by left. }
  by rewrite Hrun in Hshaped.
Qed.

(** No case of the [switch] shadows another: each of the six routes
    reaches its own handler, whatever the path parameters and the body. *)
Theorem dispatch_reaches_every_route
    (ctx : Ctx) (params : gmap string string) (body : string) :
  HandleRequest ctx (mkRequest "/customers" "GET" params body)
  = GetCustomers ctx /\
  HandleRequest ctx (mkRequest "/customers/{id}" "GET" params body)
  = GetCustomer ctx (mkRequest "/customers/{id}" "GET" params body) /\
  HandleRequest ctx (mkRequest "/customers" "POST" params body)
  = CreateCustomer ctx (mkRequest "/customers" "POST" params body) /\
  HandleRequest ctx (mkRequest "/customers/{id}" "PUT" params body)
  = UpdateCustomer ctx (mkRequest "/customers/{id}" "PUT" params body) /\
  HandleRequest ctx (mkRequest "/customers/{id}" "DELETE" params body)
  = DeleteCustomer ctx (mkRequest "/customers/{id}" "DELETE" params body) /\
  HandleRequest ctx (mkRequest "/customers/kpi" "GET" params body)
  = GetKPI ctx.
Proof. by repeat split. Qed.

End Handlers.
End HandlerMore.

(** * The further properties at concrete inputs *)

Module MoreRuns.
Import Go pkggomicro ClientVocab Fixtures MoreFixtures ClientMore.

Lemma getRegisteredServices_prints_witness :
  length (snd (getRegisteredServices (ext := scenario) config 2))
  = printed_lines (fst (fst (getRegisteredServices (ext := scenario) config 2))).
Proof.
  apply (getRegisteredServices_prints (ext := scenario) config 2). reflexivity.
Defined.

Lemma instance_stays_non_nil_witness :
  is_Some (instance (shared
    (run (ext := scenario) setupClient config [Task 0; Task 0; Task 0; Task 0]
       (run setupClient config [Caller 0; Caller 0] (init 1))))).
Proof.
  apply (instance_stays_non_nil (ext := scenario) setupClient config).
  eexists. reflexivity.
Defined.

Lemma callers_never_query_registry_witness :
  let sched := [Caller 0; Caller 1; Caller 0; Caller 0; Caller 0; Caller 1] in
  lookups (shared (run (ext := scenario) setupClient config sched (init 2)))
  = lookups (shared (init (ext := scenario) 2)) /\
  stdout (shared (run (ext := scenario) setupClient config sched (init 2)))
  = stdout (shared (init (ext := scenario) 2)).
Proof.
  apply (callers_never_query_registry (ext := scenario) setupClient config).
  repeat constructor.
Defined.

Lemma process_discovery_stops_witness :
  let w := run (ext := scenario) setupClient config
               [Caller 0; Caller 0; Caller 1; Task 0; Task 0; Task 0;
                Caller 0; Caller 0; Task 0; Task 0; Caller 1; Caller 1]
               (init 2) in
  lookups (shared w) <= 2 + 1 /\ length (tasks w) <= 1 /\
  (forall j, tasks w !! j = Some Finished ->
             lookups (shared w) = 2 + 1 /\
             instance (shared w)
             = Some (mkClient (ext := scenario) None [orders])).
Proof.
  apply (process_discovery_stops (ext := scenario) setupClient config 2 [orders]).
  - intros k Hk. right. destruct k as [|[|k]]; [reflexivity | reflexivity | lia].
  - reflexivity.
  - discriminate.
Defined.

Lemma returned_handle_shape_witness :
  let h := mkClient (ext := scenario) None [orders] in
  (GetClient h = Some "consul:8500" /\ GetServerName h = Panics) \/
  (GetClient h = None /\
   exists s, head (rs h) = Some s /\ GetServerName h = Returns (registry.Name s)).
Proof.
  apply (returned_handle_shape (ext := scenario) config 2
           [Caller 0; Caller 0; Caller 1; Task 0; Task 0; Task 0;
            Caller 0; Caller 0; Task 0; Task 0; Caller 1; Caller 1] 1
           (mkClient (ext := scenario) None [orders]) None).
  reflexivity.
Defined.

Lemma first_call_returns_before_discovery_witness :
  let w := run (ext := scenario) setupClient config (replicate 4 (Caller 0))
               (init 1) in
  callers w !! 0
  = Some (Returned
            (Some (mkClient (ext := scenario) (Some "consul:8500") []), None)) /\
  GetServerName (mkClient (ext := scenario) (Some "consul:8500") []) = Panics /\
  lookups (shared w) = 0 /\ stdout (shared w) = [] /\ tasks w = [LoopTop].
Proof.
  apply (first_call_returns_before_discovery (ext := scenario) config 1). lia.
Defined.

Lemma initialised_call_returns_witness :
  let w := run (ext := scenario) setupClient config [Caller 0; Caller 0]
               (init 2) in
  exists r, callers (run setupClient config (replicate 3 (Caller 1)) w) !! 1
            = Some (Returned r) /\
            snd r = None /\ is_Some (fst r).
Proof.
  apply (initialised_call_returns (ext := scenario) config 2
           [Caller 0; Caller 0] 1 InOnceDo); reflexivity.
Defined.

Import events inbound HandlerVocab HandlerMore.

Lemma unknown_route_not_found_witness :
  HandleRequest (ext := shop) tt (mkRequest "/customers/" "get" ∅ "")
    [(7%Z, "Ada")]
  = Go.Returns ((mkResponse http.StatusNotFound ∅ "Not Found", None),
                [(7%Z, "Ada")]).
Proof.
  apply (unknown_route_not_found (ext := shop)).
  unfold routes. simpl. rewrite !not_elem_of_cons.
  repeat split; try discriminate. apply not_elem_of_nil.
Defined.

Lemma bad_path_id_is_rejected_witness :
  let request := mkRequest "/customers/{id}" "DELETE" {[ "id" := "x" ]} "" in
  rejected (ext := shop) [(7%Z, "Ada")]
    (GetCustomer (ext := shop) tt request [(7%Z, "Ada")]) /\
  rejected (ext := shop) [(7%Z, "Ada")]
    (UpdateCustomer (ext := shop) tt request [(7%Z, "Ada")]) /\
  rejected (ext := shop) [(7%Z, "Ada")]
    (DeleteCustomer (ext := shop) tt request [(7%Z, "Ada")]).
Proof.
  apply (bad_path_id_is_rejected (ext := shop)). left. discriminate.
Defined.

Lemma bad_body_is_rejected_witness :
  let request := mkRequest "/customers" "POST" ∅ "" in
  rejected (ext := shop) [(7%Z, "Ada")]
    (CreateCustomer (ext := shop) tt request [(7%Z, "Ada")]) /\
  rejected (ext := shop) [(7%Z, "Ada")]
    (UpdateCustomer (ext := shop) tt request [(7%Z, "Ada")]).
Proof.
  apply (bad_body_is_rejected (ext := shop)). left. discriminate.
Defined.

Lemma responses_have_shape_witness :
  response_shape (mkResponse 200 jsonHeaders "Ada").
Proof.
  apply (responses_have_shape (ext := shop) tt
           (mkRequest "/customers/{id}" "GET" {[ "id" := "7" ]} "")
           [(7%Z, "Ada")] [(7%Z, "Ada")] _ None).
  vm_compute. reflexivity.
Defined.

(** A created customer is appended to the store; a refused one is not. *)
Example shop_create :
  HandleRequest (ext := shop) tt (mkRequest "/customers" "POST" ∅ "Bob")
    [(7%Z, "Ada")]
  = Go.Returns ((mkResponse 201 jsonHeaders "", None),
                [(7%Z, "Ada"); (0%Z, "Bob")]).
Proof. vm_compute. reflexivity. Qed.

Import pkgcgrpcclient.

Example pki_loads :
  loadTLSConfig (ext := pki) (Some ("client.crt", "client.key", "ca.pem"))
  = Returns (Some (mktls_Config (ext := pki) ["client"] ["CA"]), None)
  /\ loadTLSConfig (ext := pki) (Some ("client.crt", "client.key", "empty.pem"))
     = Returns (None, Some (errorString "failed to append CA certificates")).
Proof. by split. Qed.

Import lambdahandler.

Example aws_handler :
  NewLambdaHandler (ext := aws) "use cases"
  = (Some (mkLambdaHandler (ext := aws) "use cases" "lambda"), None).
Proof. reflexivity. Qed.

End MoreRuns.

(** * newClient and a failed initialisation *)

Module FailurePath.
Import Go pkggomicro ClientVocab ClientProps Fixtures MoreFixtures.

Section Blocked.
Context {ext : Externals}.
Variable setup : defs.Config -> option gmClient * option error.
Variable config : defs.Config.




End Blocked.


Section NoFailure.
Context {ext : Externals}.


End NoFailure.


End FailurePath.

(** * Failures of the lambda handler are encoded in the response *)

Module HandlerEncoding.
Import events inbound HandlerVocab HandlerContracts HandlerProps HandlerMore.
Import Fixtures MoreFixtures.

Section Encoding.
Context {ext : Externals}.











End Encoding.



End HandlerEncoding.
